(** * Attester slashing protection of the validator client

    A shallow embedding of the validator client's attester duty
    ([SubmitAttestation]) and of its slashing-protection engine
    ([isNewAttSlashable], [markAttestationForTargetEpoch],
    [safeTargetToSource]).

    Conventions of the embedding:
    - a Go [uint64] is a [Z] in the range [0, 2^64); additions that can
      overflow are wrapped with [u64];
    - a Go [int] is the 64-bit two's-complement integer of the amd64 and
      arm64 targets: [int] is the conversion [int(x)] of a [uint64] and
      [int_sub] the wrapping subtraction;
    - a Go runtime panic (index out of range, integer divide by zero) is the
      outcome [Panic]; loops that the source does not bound take a [fuel]
      and give [OutOfFuel] when it is used up;
    - [params.BeaconConfig()] is an explicit [BeaconChainConfig] argument;
    - protobuf messages are records with every submessage present, byte
      strings are lists of bytes, and log lines carry their format string. *)

From Stdlib Require Import ZArith Lia Bool String.
From stdpp Require Import base decidable option list gmap.

Open Scope Z_scope.

(** ** Outcomes of Go computations *)

Inductive outcome (A : Type) : Type :=
| Done (a : A)
| Panic
| OutOfFuel.

Arguments Done {A} a.
Arguments Panic {A}.
Arguments OutOfFuel {A}.

Definition obind {A B : Type} (m : outcome A) (k : A -> outcome B) : outcome B :=
  match m with
  | Done a => k a
  | Panic => Panic
  | OutOfFuel => OutOfFuel
  end.

Declare Scope outcome_scope.
Delimit Scope outcome_scope with outcome.
Notation "'let*' x := m 'in' k" := (obind m (fun x => k))
  (at level 10, x name, m at level 100, k at level 200) : outcome_scope.
Open Scope outcome_scope.

(** ** Machine integers *)

Module U64.

Definition modulus : Z := 2 ^ 64.
Definition half : Z := 2 ^ 63.

(** [in_range x]: [x] is a value of type [uint64]. *)
Definition in_range (x : Z) : Prop := 0 <= x < modulus.

(** Wrap-around of [uint64] arithmetic. *)
Definition u64 (z : Z) : Z := z mod modulus.

(** The conversion [int(x)] of a [uint64] to the signed 64-bit [int]. *)
Definition int (x : Z) : Z := if x <? half then x else x - modulus.

(** Subtraction of two [int]s, wrapping in two's complement. *)
Definition int_sub (a b : Z) : Z := (a - b + half) mod modulus - half.

(** [a % b] on [uint64]: panics when the divisor is zero. *)
Definition rem (a b : Z) : outcome Z :=
  if b =? 0 then Panic else Done (a mod b).

End U64.
Export U64.

(** ** Slices of [uint64] *)

(** [s[i]] of a slice: panics when [i] is out of range. *)
Definition index (s : list Z) (i : Z) : outcome Z :=
  match s !! Z.to_nat i with
  | Some x => Done x
  | None => Panic
  end.

(** [s[i] = x] of a slice: panics when [i] is out of range. *)
Definition store (s : list Z) (i x : Z) : outcome (list Z) :=
  if decide (Z.to_nat i < length s)%nat
  then Done (<[Z.to_nat i := x]> s)
  else Panic.

(** ** Configuration and history *)

(** The two fields of [params.BeaconConfig()] that the attester reads. *)
Record BeaconChainConfig : Type := {
  FarFutureEpoch : Z;
  WeakSubjectivityPeriod : Z
}.

(** Modelled from the spec: the type [slashpb.AttestationHistory], whose
    declaration is outside the sources at hand.  The spec gives it as the
    watermark [latestEpochWritten] and the array [targetToSource], indexed by
    [epoch mod period]; reads and writes of the array are bounds-checked as
    Go's are. *)
Record AttestationHistory : Type := {
  TargetToSource : list Z;
  LatestEpochWritten : Z
}.

(** Modelled from the spec: the sentinel is the largest [uint64]. *)
Definition farFutureEpoch : Z := 2 ^ 64 - 1.

(** Modelled from the spec: the history of a key that has not attested yet,
    with every slot at the sentinel and the watermark at 0. *)
Definition emptyHistory (cfg : BeaconChainConfig) : AttestationHistory :=
  {| TargetToSource :=
       replicate (Z.to_nat (WeakSubjectivityPeriod cfg)) (FarFutureEpoch cfg);
     LatestEpochWritten := 0 |}.

(** Configurations used in the examples: the sentinel is the largest
    [uint64], the period varies. *)
Definition configOfPeriod (period : Z) : BeaconChainConfig :=
  {| FarFutureEpoch := farFutureEpoch; WeakSubjectivityPeriod := period |}.

Definition mainnetConfig : BeaconChainConfig := configOfPeriod 54000.

(** ** The slashing-protection engine *)

(** [safeTargetToSource] makes sure the epoch accessed is within bounds, and
    if it is not it returns the default FAR_FUTURE_EPOCH value. *)
Definition safeTargetToSource (cfg : BeaconChainConfig)
    (history : AttestationHistory) (targetEpoch : Z) : outcome Z :=
  let wsPeriod := WeakSubjectivityPeriod cfg in
  if (LatestEpochWritten history <? targetEpoch)
     || (int targetEpoch <? int_sub (int (LatestEpochWritten history)) (int wsPeriod))
  then Done (FarFutureEpoch cfg)
  else
    let* slot := rem targetEpoch wsPeriod in
    index (TargetToSource history) slot.

(** The loop [for i := sourceEpoch; i <= targetEpoch; i++] of
    [isNewAttSlashable], from the current value of [i].  [Done true] is the
    [return true] of its body, [Done false] the normal end of the loop. *)
Fixpoint surroundingLoop (fuel : nat) (cfg : BeaconChainConfig)
    (history : AttestationHistory) (sourceEpoch targetEpoch i : Z)
    : outcome bool :=
  if i <=? targetEpoch then
    match fuel with
    | O => OutOfFuel
    | S fuel' =>
        let* src := safeTargetToSource cfg history i in
        if src =? FarFutureEpoch cfg then
          surroundingLoop fuel' cfg history sourceEpoch targetEpoch (u64 (i + 1))
        else
          let* slot := rem i (WeakSubjectivityPeriod cfg) in
          let* recorded := index (TargetToSource history) slot in
          if sourceEpoch <? recorded then Done true
          else surroundingLoop fuel' cfg history sourceEpoch targetEpoch (u64 (i + 1))
    end
  else Done false.

(** The loop [for i := targetEpoch; i <= history.LatestEpochWritten; i++]. *)
Fixpoint surroundedLoop (fuel : nat) (cfg : BeaconChainConfig)
    (history : AttestationHistory) (sourceEpoch i : Z) : outcome bool :=
  if i <=? LatestEpochWritten history then
    match fuel with
    | O => OutOfFuel
    | S fuel' =>
        let* src := safeTargetToSource cfg history i in
        if src <? sourceEpoch then Done true
        else surroundedLoop fuel' cfg history sourceEpoch (u64 (i + 1))
    end
  else Done false.

(** [isNewAttSlashable] uses the attestation history to determine if an
    attestation of [sourceEpoch] and [targetEpoch] would be slashable. *)
Definition isNewAttSlashable (fuel : nat) (cfg : BeaconChainConfig)
    (history : AttestationHistory) (sourceEpoch targetEpoch : Z)
    : outcome bool :=
  let farFuture := FarFutureEpoch cfg in
  let wsPeriod := WeakSubjectivityPeriod cfg in
  (* Previously pruned, we should return false. *)
  if int targetEpoch <=? int_sub (int (LatestEpochWritten history)) (int wsPeriod)
  then Done false
  else
    (* Check if there has already been a vote for this target epoch. *)
    let* voted := safeTargetToSource cfg history targetEpoch in
    if negb (voted =? farFuture) then Done true
    else
      (* Check if the new attestation would be surrounding another attestation. *)
      let* surrounding :=
        surroundingLoop fuel cfg history sourceEpoch targetEpoch sourceEpoch in
      if surrounding then Done true
      else
        (* Check if the new attestation is being surrounded. *)
        let* surrounded :=
          surroundedLoop fuel cfg history sourceEpoch targetEpoch in
        if surrounded then Done true
        else Done false.

(** The loop
    [for i := history.LatestEpochWritten + 1; i < targetEpoch && i <= maxToWrite; i++]
    of [markAttestationForTargetEpoch], on the array being overwritten. *)
Fixpoint clearLoop (fuel : nat) (cfg : BeaconChainConfig)
    (targetEpoch maxToWrite i : Z) (targetToSource : list Z)
    : outcome (list Z) :=
  if (i <? targetEpoch) && (i <=? maxToWrite) then
    match fuel with
    | O => OutOfFuel
    | S fuel' =>
        let* slot := rem i (WeakSubjectivityPeriod cfg) in
        let* cleared := store targetToSource slot (FarFutureEpoch cfg) in
        clearLoop fuel' cfg targetEpoch maxToWrite (u64 (i + 1)) cleared
    end
  else Done targetToSource.

(** [markAttestationForTargetEpoch] returns the modified attestation history
    with the passed-in epochs marked as attested for.  The source updates the
    history in place and returns the same pointer; the embedding returns the
    updated value.  The loop runs at most [wsPeriod] times ([maxToWrite] is
    [wsPeriod] above the watermark), which is the fuel it is given. *)
Definition markAttestationForTargetEpoch (cfg : BeaconChainConfig)
    (history : AttestationHistory) (sourceEpoch targetEpoch : Z)
    : outcome AttestationHistory :=
  let wsPeriod := WeakSubjectivityPeriod cfg in
  let* history1 :=
    if LatestEpochWritten history <? targetEpoch then
      let maxToWrite := u64 (LatestEpochWritten history + wsPeriod) in
      let* cleared :=
        clearLoop (Z.to_nat wsPeriod) cfg targetEpoch maxToWrite
          (u64 (LatestEpochWritten history + 1)) (TargetToSource history) in
      Done {| TargetToSource := cleared; LatestEpochWritten := targetEpoch |}
    else Done history in
  let* slot := rem targetEpoch wsPeriod in
  let* written := store (TargetToSource history1) slot sourceEpoch in
  Done {| TargetToSource := written;
          LatestEpochWritten := LatestEpochWritten history1 |}.


(** ** Data of the attester duty *)

Definition bytes : Type := list Byte.byte.

#[global] Instance byte_eq_dec : EqDecision Byte.byte := Byte.byte_eq_dec.

Record Checkpoint : Type := {
  Epoch : Z;
  Root : bytes
}.

Record AttestationData : Type := {
  Slot : Z;
  CommitteeIndex : Z;
  BeaconBlockRoot : bytes;
  Source : Checkpoint;
  Target : Checkpoint
}.

Record Attestation : Type := {
  AggregationBits : list bool;
  Data : AttestationData;
  Signature : bytes
}.

(** [ethpb.DutiesResponse_Duty], with the fields the attester reads. *)
Record Duty : Type := {
  Duty_Committee : list Z;
  Duty_CommitteeIndex : Z;
  Duty_PublicKey : bytes;
  Duty_ValidatorIndex : Z
}.

Record attSubmitted : Type := {
  data : AttestationData;
  attesterIndices : list Z;
  aggregatorIndices : list Z
}.

(** ** Events and collaborators *)

(** What an execution does to the outside, in order: each call of a
    collaborator with its arguments and its result ([None] is the Go error),
    log lines and metric increments.  [EvIsNewAttSlashable] marks a call of the
    pure [isNewAttSlashable] and its result, so that orderings with respect to
    the check can be stated. *)
Inductive event : Type :=
| EvLogError (msg : string)
| EvLogInfo (msg : string) (responseRoot : bytes) (epoch : Z)
| EvFailMetric (fmtKey : bytes)
| EvSuccessMetric (fmtKey : bytes)
| EvGetAttestationData (slot committeeIndex : Z) (res : option AttestationData)
| EvAttestationHistory (pubKey : bytes) (res : option AttestationHistory)
| EvIsNewAttSlashable (sourceEpoch targetEpoch : Z) (res : bool)
| EvDomainData (epoch : Z) (res : option bytes)
| EvSign (pubKey root domain : bytes) (res : option bytes)
| EvProposeAttestation (att : Attestation) (res : option bytes)
| EvSaveAttestationHistory (pubKey : bytes) (history : AttestationHistory)
    (ok : bool).

(** The collaborators of the validator: the beacon node client, the key
    manager, the database and the two hash functions.  A stateful collaborator
    answers from the events so far, which covers any deterministic behaviour
    of it. *)
Record collaborators : Type := {
  GetAttestationData : list event -> Z -> Z -> option AttestationData;
  DomainData : list event -> Z -> option bytes;
  ProposeAttestation : list event -> Attestation -> option bytes;
  KeyManagerSign : list event -> bytes -> bytes -> bytes -> option bytes;
  DbAttestationHistory : list event -> bytes -> option AttestationHistory;
  DbSaveAttestationHistory : list event -> bytes -> AttestationHistory -> bool;
  HashTreeRoot : AttestationData -> option bytes;
  HashProto : AttestationData -> option Z
}.

(** The fields of the [validator] struct that the attester reads; [attLogs]
    is the one it writes and is part of the [world]. *)
Record validator : Type := {
  duties : option (list Duty);
  emitAccountMetrics : bool;
  env : collaborators
}.

(** [featureconfig.Get()]. *)
Record Flags : Type := {
  ProtectAttester : bool
}.

Record world : Type := {
  trace : list event;
  attLogs : gmap Z attSubmitted
}.

(** ** The monad of the orchestrator *)

(** How a statement of [SubmitAttestation] ends: control goes on with a
    value, the function returns, the process panics, or the model is out of
    fuel. *)
Inductive flow (A : Type) : Type :=
| Next (a : A)
| Returned
| Crashed
| Exhausted.

Arguments Next {A} a.
Arguments Returned {A}.
Arguments Crashed {A}.
Arguments Exhausted {A}.

Definition M (A : Type) : Type := world -> world * flow A.

Definition ret {A : Type} (a : A) : M A := fun w => (w, Next a).

Definition bind {A B : Type} (m : M A) (k : A -> M B) : M B :=
  fun w =>
    match m w with
    | (w', Next a) => k a w'
    | (w', Returned) => (w', Returned)
    | (w', Crashed) => (w', Crashed)
    | (w', Exhausted) => (w', Exhausted)
    end.

Declare Scope flow_scope.
Delimit Scope flow_scope with flow.
Notation "'run' x := m 'in' k" := (bind m (fun x => k))
  (at level 10, x name, m at level 100, k at level 200) : flow_scope.
Notation "m ;; k" := (bind m (fun _ => k))
  (at level 100, k at level 200, right associativity) : flow_scope.
Open Scope flow_scope.

Definition return_ {A : Type} : M A := fun w => (w, Returned).

Definition exhausted {A : Type} : M A := fun w => (w, Exhausted).

Definition lift {A : Type} (o : outcome A) : M A :=
  fun w =>
    match o with
    | Done a => (w, Next a)
    | Panic => (w, Crashed)
    | OutOfFuel => (w, Exhausted)
    end.

Definition emit (e : event) : M unit :=
  fun w => ({| trace := trace w ++ [e]; attLogs := attLogs w |}, Next tt).

(** A call of a collaborator: it answers from the events so far, and the
    call is recorded with its answer. *)
Definition call {R : Type} (ask : list event -> R) (record : R -> event) : M R :=
  fun w =>
    let r := ask (trace w) in
    ({| trace := trace w ++ [record r]; attLogs := attLogs w |}, Next r).

Definition getAttLogs : M (gmap Z attSubmitted) := fun w => (w, Next (attLogs w)).

Definition setAttLogs (logs : gmap Z attSubmitted) : M unit :=
  fun w => ({| trace := trace w; attLogs := logs |}, Next tt).

Definition when (b : bool) (m : M unit) : M unit := if b then m else ret tt.

(** ** The attestation orchestrator *)

(** The failure path of every step of [SubmitAttestation]: one error line,
    the failure counter of the key when metrics are on, and the return. *)
Definition abandon {A : Type} (v : validator) (fmtKey : bytes) (msg : string)
    : M A :=
  emit (EvLogError msg) ;;
  when (emitAccountMetrics v) (emit (EvFailMetric fmtKey)) ;;
  return_.

(** [x, err := ...; if err != nil { ...; return }]. *)
Definition orAbandon {A : Type} (v : validator) (fmtKey : bytes) (msg : string)
    (r : option A) : M A :=
  match r with
  | Some a => ret a
  | None => abandon v fmtKey msg
  end.

Fixpoint findDuty (pubKey : bytes) (ds : list Duty) : option Duty :=
  match ds with
  | [] => None
  | d :: ds' =>
      if decide (pubKey = Duty_PublicKey d) then Some d else findDuty pubKey ds'
  end.

(** Given the validator public key, this gets the validator assignment;
    [None] is either of the two errors. *)
Definition duty (v : validator) (pubKey : bytes) : option Duty :=
  match duties v with
  | None => None
  | Some ds => findDuty pubKey ds
  end.

(** Given validator's public key, this returns the signature of an
    attestation data; [None] is the error of any of the three steps. *)
Definition signAtt (v : validator) (pubKey : bytes) (att : AttestationData)
    : M (option bytes) :=
  run domain := call (fun tr => DomainData (env v) tr (Epoch (Target att)))
                     (EvDomainData (Epoch (Target att))) in
  match domain with
  | None => ret None
  | Some signatureDomain =>
      match HashTreeRoot (env v) att with
      | None => ret None
      | Some root =>
          call (fun tr => KeyManagerSign (env v) tr pubKey root signatureDomain)
               (EvSign pubKey root signatureDomain)
      end
  end.

(** For logging, this saves the last submitted attester index to its
    attestation data; [false] is the error of the hash.  The lock around the
    map has no counterpart in a sequential run. *)
Definition saveAttesterIndexToData (v : validator) (att : AttestationData)
    (index : Z) : M bool :=
  match HashProto (env v) att with
  | None => ret false
  | Some h =>
      run logs := getAttLogs in
      let logs1 :=
        match logs !! h with
        | None => <[h := {| data := att; attesterIndices := [];
                            aggregatorIndices := [] |}]> logs
        | Some _ => logs
        end in
      match logs1 !! h with
      | None => lift Panic
      | Some entry =>
          setAttLogs (<[h := {| data := att;
                                attesterIndices := attesterIndices entry ++ [index];
                                aggregatorIndices := [] |}]> logs1) ;;
          ret true
      end
  end.

(** The loop [for data1.Source.Epoch == data2.Source.Epoch] that asks the
    beacon node again until the second attestation data has another source
    epoch than the first. *)
Fixpoint fetchSecond (fuel : nat) (v : validator) (fmtKey : bytes)
    (slot committeeIndex : Z) (data1 data2 : AttestationData)
    : M AttestationData :=
  if Epoch (Source data1) =? Epoch (Source data2) then
    match fuel with
    | O => exhausted
    | S fuel' =>
        run res := call (fun tr => GetAttestationData (env v) tr slot committeeIndex)
                        (EvGetAttestationData slot committeeIndex) in
        run next := orAbandon v fmtKey
                      "Could not request attestation 2 to sign at slot" res in
        fetchSecond fuel' v fmtKey slot committeeIndex data1 next
    end
  else ret data2.

(** [for i, vID := range duty.Committee]: the position of the validator in
    its committee, counted from [i]. *)
Fixpoint indexInCommittee (validatorIndex : Z) (committee : list Z) (i : Z)
    : option Z :=
  match committee with
  | [] => None
  | vID :: rest =>
      if vID =? validatorIndex then Some i
      else indexInCommittee validatorIndex rest (i + 1)
  end.

(** [bitfield.NewBitlist(n)] followed by [SetBitAt(i, true)]. *)
Definition aggregationBitfield (n : nat) (i : Z) : list bool :=
  <[Z.to_nat i := true]> (replicate n false).

(** [SubmitAttestation] completes the validator client's attester
    responsibility at a given slot.  The tracing span is left out. *)
Definition SubmitAttestation (fuel : nat) (cfg : BeaconChainConfig)
    (flags : Flags) (v : validator) (slot : Z) (pubKey : bytes) : M unit :=
  let fmtKey := take 8 pubKey in
  run duty := orAbandon v fmtKey "Could not fetch validator assignment"
                (duty v pubKey) in
  let committeeIndex := Duty_CommitteeIndex duty in
  run res1 := call (fun tr => GetAttestationData (env v) tr slot committeeIndex)
                   (EvGetAttestationData slot committeeIndex) in
  run data1 := orAbandon v fmtKey
                 "Could not request attestation 1 to sign at slot" res1 in
  run data2 := fetchSecond fuel v fmtKey slot committeeIndex data1 data1 in
  (if ProtectAttester flags then
     run loaded := call (fun tr => DbAttestationHistory (env v) tr pubKey)
                        (EvAttestationHistory pubKey) in
     run history := orAbandon v fmtKey
                      "Could not get attestation history from DB: %v" loaded in
     run slashable := lift (isNewAttSlashable fuel cfg history
                              (Epoch (Source data1)) (Epoch (Target data1))) in
     emit (EvIsNewAttSlashable (Epoch (Source data1)) (Epoch (Target data1))
             slashable) ;;
     if slashable
     then abandon v fmtKey "Attempted to make a slashable attestation, rejected"
     else ret tt
   else ret tt) ;;
  run signed1 := signAtt v pubKey data1 in
  run sig1 := orAbandon v fmtKey "Could not sign attestation 1" signed1 in
  run signed2 := signAtt v pubKey data2 in
  run sig2 := orAbandon v fmtKey "Could not sign attestation 2" signed2 in
  run position := orAbandon v fmtKey "Validator ID %d not found in committee of %v"
                    (indexInCommittee (Duty_ValidatorIndex duty)
                       (Duty_Committee duty) 0) in
  let bits := aggregationBitfield (length (Duty_Committee duty)) position in
  let attestation1 :=
    {| AggregationBits := bits; Data := data1; Signature := sig1 |} in
  let attestation2 :=
    {| AggregationBits := bits; Data := data2; Signature := sig2 |} in
  run resp1 := call (fun tr => ProposeAttestation (env v) tr attestation1)
                    (EvProposeAttestation attestation1) in
  run attResp1 := orAbandon v fmtKey
                    "Could not submit attestation1 to beacon node" resp1 in
  run resp2 := call (fun tr => ProposeAttestation (env v) tr attestation2)
                    (EvProposeAttestation attestation2) in
  run attResp2 := orAbandon v fmtKey
                    "Could not submit attestation2 to beacon node" resp2 in
  emit (EvLogInfo "Successfully submitted attestation 1" (take 6 attResp1)
          (Epoch (Source data1))) ;;
  emit (EvLogInfo "Successfully submitted attestation 2" (take 6 attResp2)
          (Epoch (Source data2))) ;;
  (if ProtectAttester flags then
     run loaded := call (fun tr => DbAttestationHistory (env v) tr pubKey)
                        (EvAttestationHistory pubKey) in
     run history := orAbandon v fmtKey
                      "Could not get attestation history from DB: %v" loaded in
     run marked := lift (markAttestationForTargetEpoch cfg history
                           (Epoch (Source data1)) (Epoch (Target data1))) in
     run saved := call (fun tr => DbSaveAttestationHistory (env v) tr pubKey marked)
                       (EvSaveAttestationHistory pubKey marked) in
     if saved then ret tt
     else abandon v fmtKey "Could not save attestation history to DB: %v"
   else ret tt) ;;
  run logged := saveAttesterIndexToData v data1 (Duty_ValidatorIndex duty) in
  (if logged then ret tt
   else abandon v fmtKey "Could not save validator index for logging") ;;
  when (emitAccountMetrics v) (emit (EvSuccessMetric fmtKey)).

(** One execution of [SubmitAttestation], from no event and the given log
    map: the events of the execution, in order. *)
Definition execution (fuel : nat) (cfg : BeaconChainConfig) (flags : Flags)
    (v : validator) (slot : Z) (pubKey : bytes)
    (logs : gmap Z attSubmitted) : list event :=
  trace (fst (SubmitAttestation fuel cfg flags v slot pubKey
                {| trace := []; attLogs := logs |})).

(** ** Reading of the specification, for comparison *)

(** [safeTargetToSource] as the specification words it: the sentinel when the
    epoch is above the watermark or at most [period] below it, in unbounded
    arithmetic, and the slot of the epoch otherwise. *)
Definition specSafeTargetToSource (cfg : BeaconChainConfig)
    (history : AttestationHistory) (epoch : Z) : outcome Z :=
  let period := WeakSubjectivityPeriod cfg in
  if (LatestEpochWritten history <? epoch)
     || (epoch <=? LatestEpochWritten history - period)
  then Done (FarFutureEpoch cfg)
  else
    let* slot := rem epoch period in
    index (TargetToSource history) slot.

(** A history as the data model has it: an array of [period] slots, and
    [uint64] values. *)
Definition wf_history (cfg : BeaconChainConfig) (h : AttestationHistory) : Prop :=
  length (TargetToSource h) = Z.to_nat (WeakSubjectivityPeriod cfg)
  /\ in_range (LatestEpochWritten h).

(** ** Properties of traces *)

Definition is_signing (e : event) : bool :=
  match e with
  | EvDomainData _ _ | EvSign _ _ _ _ => true
  | _ => false
  end.

Definition is_submission (e : event) : bool :=
  match e with
  | EvProposeAttestation _ _ => true
  | _ => false
  end.

Definition is_save (e : event) : bool :=
  match e with
  | EvSaveAttestationHistory _ _ _ => true
  | _ => false
  end.

(** [only_after Q G tr]: wherever an event [e] with [Q e] occurs in [tr], the
    events before it and [e] satisfy [G]. *)
Definition only_after (Q : event -> bool) (G : list event -> event -> Prop)
    (tr : list event) : Prop :=
  forall pre e post, tr = pre ++ e :: post -> Q e = true -> G pre e.

(** The submissions so far are two, and both were accepted. *)
Definition both_accepted (pre : list event) : Prop :=
  exists a1 r1 a2 r2,
    List.filter is_submission pre
    = [EvProposeAttestation a1 (Some r1); EvProposeAttestation a2 (Some r2)].

(** The history being saved is a loaded history with one accepted
    attestation marked. *)
Definition records_accepted (cfg : BeaconChainConfig) (pre : list event)
    (e : event) : Prop :=
  exists pubKey loaded marked ok a r,
    e = EvSaveAttestationHistory pubKey marked ok
    /\ In (EvAttestationHistory pubKey (Some loaded)) pre
    /\ In (EvProposeAttestation a (Some r)) pre
    /\ markAttestationForTargetEpoch cfg loaded
         (Epoch (Source (Data a))) (Epoch (Target (Data a))) = Done marked.

(** [isNewAttSlashable] was consulted and answered [false]. *)
Definition consulted (pre : list event) : Prop :=
  exists sourceEpoch targetEpoch,
    In (EvIsNewAttSlashable sourceEpoch targetEpoch false) pre.

(** ** Histories of the examples *)

Definition period4 : BeaconChainConfig := configOfPeriod 4.

(** Period 4, watermark 10: slot [10 mod 4 = 2] holds the vote (7, 10). *)
Definition history_wrapped : AttestationHistory :=
  {| TargetToSource := [farFutureEpoch; farFutureEpoch; 7; farFutureEpoch];
     LatestEpochWritten := 10 |}.

(** Period 4, watermark 10, no vote in the window. *)
Definition history_at_10 : AttestationHistory :=
  {| TargetToSource := replicate 4 farFutureEpoch; LatestEpochWritten := 10 |}.

(** Period 4, watermark [2^63]: slot [2^63 mod 4 = 0] holds the vote
    (5, 2^63). *)
Definition history_huge : AttestationHistory :=
  {| TargetToSource := [5; farFutureEpoch; farFutureEpoch; farFutureEpoch];
     LatestEpochWritten := 2 ^ 63 |}.

(** Period 4, watermark 3, with the votes (0, 1), (1, 2) and (2, 3). *)
Definition history_at_3 : AttestationHistory :=
  {| TargetToSource := [farFutureEpoch; 0; 1; 2]; LatestEpochWritten := 3 |}.

(** The mainnet period, watermark 60000, no vote in the window. *)
Definition history_mainnet : AttestationHistory :=
  {| TargetToSource := replicate (Z.to_nat 54000) farFutureEpoch;
     LatestEpochWritten := 60000 |}.

(** ** A run against an in-memory beacon node and database *)

Definition period8 : BeaconChainConfig := configOfPeriod 8.

Definition protecting : Flags := {| ProtectAttester := true |}.

Definition key : bytes := replicate 48 Byte.x01.

(** The attestation data of slot 200 with the given source and target. *)
Definition dataOf (sourceEpoch targetEpoch : Z) : AttestationData :=
  {| Slot := 200; CommitteeIndex := 0; BeaconBlockRoot := [];
     Source := {| Epoch := sourceEpoch; Root := [] |};
     Target := {| Epoch := targetEpoch; Root := [] |} |}.

(** Period 8, watermark 5, with the vote (4, 5). *)
Definition history_voted : AttestationHistory :=
  {| TargetToSource := <[5%nat := 4]> (replicate 8 farFutureEpoch);
     LatestEpochWritten := 5 |}.

Definition is_fetch (e : event) : bool :=
  match e with
  | EvGetAttestationData _ _ _ => true
  | _ => false
  end.

(** The history of the database after the events [tr], from [h]. *)
Fixpoint lastSaved (tr : list event) (h : AttestationHistory) : AttestationHistory :=
  match tr with
  | [] => h
  | EvSaveAttestationHistory _ h' true :: tr' => lastSaved tr' h'
  | _ :: tr' => lastSaved tr' h
  end.

(** A beacon node that gives the data (4, 6) to the first request and
    (3, 6) to the later ones and accepts every attestation, a key manager
    that signs, and a database that starts from [history_voted] and keeps
    what is saved. *)
Definition node : collaborators :=
  {| GetAttestationData := fun tr _ _ =>
       if existsb is_fetch tr then Some (dataOf 3 6) else Some (dataOf 4 6);
     DomainData := fun _ _ => Some [];
     ProposeAttestation := fun _ _ => Some [];
     KeyManagerSign := fun _ _ _ _ => Some [];
     DbAttestationHistory := fun tr _ => Some (lastSaved tr history_voted);
     DbSaveAttestationHistory := fun _ _ _ => true;
     HashTreeRoot := fun _ => Some [];
     HashProto := fun _ => Some 0 |}.

Definition attester : validator :=
  {| duties := Some [ {| Duty_Committee := [11; 7]; Duty_CommitteeIndex := 0;
                         Duty_PublicKey := key; Duty_ValidatorIndex := 7 |} ];
     emitAccountMetrics := false;
     env := node |}.

(** The two attestations of the run. *)
Definition attestationOf (att : AttestationData) : Attestation :=
  {| AggregationBits := [false; true]; Data := att; Signature := [] |}.

(** The events that the loop for the second attestation data adds. *)
Definition is_quiet (e : event) : bool :=
  match e with
  | EvLogError _ | EvFailMetric _ | EvGetAttestationData _ _ _ => true
  | _ => false
  end.

(** ** Postconditions of the orchestrator monad *)

(** [post m w Q R]: run from the world [w], the computation [m] either goes
    on with a value and a world that satisfy [Q], or ends (return, panic, no
    fuel) in a world that satisfies [R]. *)
Definition post {A : Type} (m : M A) (w : world)
    (Q : A -> world -> Prop) (R : world -> Prop) : Prop :=
  match m w with
  | (w', Next a) => Q a w'
  | (w', _) => R w'
  end.

(** The world after one more event. *)
Definition snoc_event (w : world) (e : event) : world :=
  {| trace := trace w ++ [e]; attLogs := attLogs w |}.

(** The order of the protected attempt: a save only after two accepted
    submissions, of a history that records one of them; a submission and a
    signature only after the check answered [false]. *)
Definition safe_trace (cfg : BeaconChainConfig) (tr : list event) : Prop :=
  only_after is_save
    (fun pre e => both_accepted pre /\ records_accepted cfg pre e) tr
  /\ only_after is_submission (fun pre _ => consulted pre) tr
  /\ only_after is_signing (fun pre _ => consulted pre) tr.

(** ** Further properties of traces *)

Definition is_metric (e : event) : bool :=
  match e with
  | EvFailMetric _ | EvSuccessMetric _ => true
  | _ => false
  end.

Definition is_success (e : event) : bool :=
  match e with
  | EvSuccessMetric _ => true
  | _ => false
  end.

Definition is_key_sign (e : event) : bool :=
  match e with
  | EvSign _ _ _ _ => true
  | _ => false
  end.

(** The events of the slashing protection: the loads and saves of the
    history and the check. *)
Definition is_protection (e : event) : bool :=
  match e with
  | EvAttestationHistory _ _ | EvIsNewAttSlashable _ _ _
  | EvSaveAttestationHistory _ _ _ => true
  | _ => false
  end.

(** No event with [Q] occurs in the trace. *)
Definition never (Q : event -> bool) (tr : list event) : Prop :=
  only_after Q (fun _ _ => False) tr.

(** A history was saved, and the database accepted it. *)
Definition saved_before (pre : list event) : Prop :=
  exists pubKey history, In (EvSaveAttestationHistory pubKey history true) pre.

(** A validator whose duty names a committee it is not a member of. *)
Definition outsider : validator :=
  {| duties := Some [ {| Duty_Committee := [11; 12]; Duty_CommitteeIndex := 0;
                         Duty_PublicKey := key; Duty_ValidatorIndex := 7 |} ];
     emitAccountMetrics := true;
     env := node |}.

(** The validator of the run, with the account metrics on. *)
Definition measured : validator :=
  {| duties := duties attester; emitAccountMetrics := true; env := node |}.

(** The attestations submitted, in order. *)
Definition submissions (tr : list event) : list event :=
  List.filter is_submission tr.

(** The beacon node gave the attestation data [att] to a request for
    [slot]. *)
Definition fetched_for (slot : Z) (att : AttestationData) (tr : list event)
    : Prop :=
  exists committeeIndex,
    In (EvGetAttestationData slot committeeIndex (Some att)) tr.

(** At most two attestations are submitted; the second only after the
    first was accepted; both carry data that the beacon node gave for the
    slot, with different source epochs, and the same aggregation bits. *)
Definition distinct_votes (slot : Z) (tr : list event) : Prop :=
  match submissions tr with
  | [] => True
  | [EvProposeAttestation a1 _] => fetched_for slot (Data a1) tr
  | [EvProposeAttestation a1 r1; EvProposeAttestation a2 _] =>
      r1 <> None
      /\ fetched_for slot (Data a1) tr /\ fetched_for slot (Data a2) tr
      /\ Epoch (Source (Data a1)) <> Epoch (Source (Data a2))
      /\ AggregationBits a1 = AggregationBits a2
  | _ => False
  end.

(** A counter of the account metrics is the last event of a trace, and the
    only one. *)
Definition metric_is_last (tr : list event) : Prop :=
  forall pre e post,
    tr = pre ++ e :: post -> is_metric e = true ->
    post = [] /\ Forall (fun e' => is_metric e' = false) pre.

(** The key manager is asked to sign, with the key [pubKey], the hash tree
    root of attestation data that the beacon node gave for the slot, under the
    domain that the request just before obtained for the target epoch of that
    data. *)
Definition signs_fetched_data (v : validator) (slot : Z) (pubKey : bytes)
    (pre : list event) (e : event) : Prop :=
  exists att root domain res,
    e = EvSign pubKey root domain res
    /\ HashTreeRoot (env v) att = Some root
    /\ last pre = Some (EvDomainData (Epoch (Target att)) (Some domain))
    /\ fetched_for slot att pre.

(** ** The check of each vote *)

(** The vote of the attestation being submitted was checked: a call of
    [isNewAttSlashable] for its source and target answered [false]. *)
Definition vote_checked (pre : list event) (e : event) : Prop :=
  exists att res,
    e = EvProposeAttestation att res
    /\ In (EvIsNewAttSlashable (Epoch (Source (Data att)))
             (Epoch (Target (Data att))) false) pre.

(** The first attestation data of the attempt was cleared: the trace starts
    with the request that fetched it, and its only events of the slashing
    protection are the load of a history and a call of [isNewAttSlashable]
    that answered [false] on that history for the source and target of that
    data. *)
Definition first_candidate_cleared (fuel : nat) (cfg : BeaconChainConfig)
    (pubKey : bytes) (pre : list event) : Prop :=
  exists slot committeeIndex data1 history,
    head pre = Some (EvGetAttestationData slot committeeIndex (Some data1))
    /\ List.filter is_protection pre
       = [ EvAttestationHistory pubKey (Some history);
           EvIsNewAttSlashable (Epoch (Source data1)) (Epoch (Target data1))
             false ]
    /\ isNewAttSlashable fuel cfg history
         (Epoch (Source data1)) (Epoch (Target data1)) = Done false.

(** A beacon node like [node] that gives the data (3, 6) to the first
    request and (4, 6) to the later ones: the first candidate surrounds the
    vote (4, 5) of [history_voted]. *)
Definition node_slashable_first : collaborators :=
  {| GetAttestationData := fun tr _ _ =>
       if existsb is_fetch tr then Some (dataOf 4 6) else Some (dataOf 3 6);
     DomainData := fun _ _ => Some [];
     ProposeAttestation := fun _ _ => Some [];
     KeyManagerSign := fun _ _ _ _ => Some [];
     DbAttestationHistory := fun tr _ => Some (lastSaved tr history_voted);
     DbSaveAttestationHistory := fun _ _ _ => true;
     HashTreeRoot := fun _ => Some [];
     HashProto := fun _ => Some 0 |}.

Definition attester_slashable_first : validator :=
  {| duties := duties attester; emitAccountMetrics := false;
     env := node_slashable_first |}.

(** A beacon node like [node] whose second attestation data has another
    target than the first: (4, 6), then (3, 7). *)
Definition node_two_targets : collaborators :=
  {| GetAttestationData := fun tr _ _ =>
       if existsb is_fetch tr then Some (dataOf 3 7) else Some (dataOf 4 6);
     DomainData := fun _ _ => Some [];
     ProposeAttestation := fun _ _ => Some [];
     KeyManagerSign := fun _ _ _ _ => Some [];
     DbAttestationHistory := fun tr _ => Some (lastSaved tr history_voted);
     DbSaveAttestationHistory := fun _ _ _ => true;
     HashTreeRoot := fun _ => Some [];
     HashProto := fun _ => Some 0 |}.

Definition attester_two_targets : validator :=
  {| duties := duties attester; emitAccountMetrics := false;
     env := node_two_targets |}.

(** ** Machine integers: facts *)

Lemma modulus_eq : modulus = 18446744073709551616.
Proof. reflexivity. Qed.

Lemma half_eq : half = 9223372036854775808.
Proof. reflexivity. Qed.

(** Unfolds the machine arithmetic and leaves linear goals over the
    quotients and remainders. *)
Ltac u64_unfold :=
  unfold in_range, u64, int, int_sub in *;
  rewrite ?modulus_eq, ?half_eq in *.

Ltac u64_cases :=
  repeat match goal with
    | |- context [?a <? ?b] => destruct (Z.ltb_spec a b)
    | |- context [?a <=? ?b] => destruct (Z.leb_spec a b)
    | |- context [?a =? ?b] => destruct (Z.eqb_spec a b)
    | H : context [?a <? ?b] |- _ => destruct (Z.ltb_spec a b)
    | H : context [?a <=? ?b] |- _ => destruct (Z.leb_spec a b)
    | H : context [?a =? ?b] |- _ => destruct (Z.eqb_spec a b)
    end.

Ltac u64_solve :=
  u64_unfold; u64_cases; simpl in *;
  try congruence; try (Z.div_mod_to_equations; lia).

Lemma int_small x : 0 <= x < half -> int x = x.
Proof. intros. u64_solve. Qed.

Lemma u64_small x : in_range x -> u64 x = x.
Proof. intros. u64_solve. Qed.

(** The comparison against the start of the retained window, when the
    epochs are below [2^63]: the signed arithmetic is exact. *)
Lemma window_start_exact lew p :
  0 <= lew < half -> 0 <= p < half -> int_sub (int lew) (int p) = lew - p.
Proof. intros. u64_solve. Qed.

(** Two consecutive epochs do not share a slot when there are two slots. *)
Lemma consecutive_slots_differ e p : 2 <= p -> e mod p <> (e + 1) mod p.
Proof.
  intros Hp Heq.
  assert (H1 : (e + 1 - e) mod p = 0).
  { rewrite Zminus_mod, <- Heq, Z.sub_diag. apply Z.mod_0_l. lia. }
  replace (e + 1 - e) with 1 in H1 by lia.
  rewrite Z.mod_small in H1; lia.
Qed.

(** ** Slices: facts *)

Lemma rem_pos a p : 0 < p -> rem a p = Done (a mod p).
Proof. intros. unfold rem. destruct (Z.eqb_spec p 0); [lia | reflexivity]. Qed.

Lemma slot_in_range (s : list Z) a p :
  0 < p -> 0 <= a -> length s = Z.to_nat p -> (Z.to_nat (a mod p) < length s)%nat.
Proof.
  intros Hp Ha Hlen. rewrite Hlen.
  pose proof (Z.mod_pos_bound a p Hp). lia.
Qed.

Lemma store_in_range (s : list Z) i x :
  (Z.to_nat i < length s)%nat -> store s i x = Done (<[Z.to_nat i := x]> s).
Proof. intros. unfold store. destruct (decide _); [reflexivity | lia]. Qed.

Lemma index_lookup (s : list Z) i x : s !! Z.to_nat i = Some x -> index s i = Done x.
Proof. intros H. unfold index. rewrite H. reflexivity. Qed.

(** ** The engine: facts shared by the theorems *)

Section Engine.

Variable cfg : BeaconChainConfig.

Notation "'period'" := (WeakSubjectivityPeriod cfg).
Notation "'far'" := (FarFutureEpoch cfg).

Lemma clearLoop_exit fuel t m i (s : list Z) :
  (i <? t) && (i <=? m) = false -> clearLoop fuel cfg t m i s = Done s.
Proof. intros H. destruct fuel; simpl; rewrite H; reflexivity. Qed.

(** The gap-clearing loop needs one unit of fuel per epoch up to
    [maxToWrite], never panics on an array of [period] slots, and keeps
    the length of the array. *)
Lemma clearLoop_done fuel : forall t m i (s : list Z),
  0 < period -> length s = Z.to_nat period ->
  0 <= i -> t < modulus -> m + 1 - i <= Z.of_nat fuel ->
  exists s',
    clearLoop fuel cfg t m i s = Done s'
    /\ length s' = length s
    /\ (t <= i -> s' = s).
Proof.
  induction fuel as [|fuel IH]; intros t m i s Hp Hlen Hi Ht Hfuel.
  - exists s. split; [|split; reflexivity]. apply clearLoop_exit.
    apply andb_false_iff. right. apply Z.leb_gt. lia.
  - simpl. destruct ((i <? t) && (i <=? m)) eqn:Hguard.
    + apply andb_true_iff in Hguard as [Hit Him].
      apply Z.ltb_lt in Hit. apply Z.leb_le in Him.
      rewrite rem_pos by assumption. simpl.
      rewrite store_in_range by (apply slot_in_range; assumption). simpl.
      rewrite u64_small by (unfold in_range; lia).
      destruct (IH t m (i + 1) (<[Z.to_nat (i mod period) := far]> s))
        as (s' & Hrun & Hlen' & _); try lia.
      { rewrite length_insert. assumption. }
      exists s'. split; [assumption|]. split; [|lia].
      rewrite Hlen', length_insert. reflexivity.
    + exists s. split; [|split]; reflexivity.
Qed.

(** What [markAttestationForTargetEpoch] returns on a history of the data
    model: the watermark is the larger of the old one and the target, and the
    slot of the target holds the source. *)
Lemma mark_done h s t :
  wf_history cfg h -> 0 < period < modulus -> in_range t ->
  exists cleared,
    markAttestationForTargetEpoch cfg h s t
    = Done {| TargetToSource := <[Z.to_nat (t mod period) := s]> cleared;
              LatestEpochWritten := Z.max (LatestEpochWritten h) t |}
    /\ length cleared = length (TargetToSource h)
    /\ (t <= LatestEpochWritten h + 1 -> cleared = TargetToSource h).
Proof.
  intros [Hlen Hlew] Hp Ht. unfold markAttestationForTargetEpoch.
  destruct (Z.ltb_spec (LatestEpochWritten h) t) as [Hlt|Hge].
  - set (m := u64 (LatestEpochWritten h + period)).
    assert (Hstart : u64 (LatestEpochWritten h + 1) = LatestEpochWritten h + 1).
    { apply u64_small. unfold in_range in *. lia. }
    rewrite Hstart.
    assert (Hfuel : m + 1 - (LatestEpochWritten h + 1)
                    <= Z.of_nat (Z.to_nat period)).
    { subst m. u64_unfold. Z.div_mod_to_equations. lia. }
    destruct (clearLoop_done (Z.to_nat period) t m (LatestEpochWritten h + 1)
                (TargetToSource h)) as (cleared & Hrun & Hlen' & Hsame);
      try assumption; try (unfold in_range in *; lia).
    rewrite Hrun. simpl. rewrite rem_pos by lia. simpl.
    rewrite store_in_range
      by (apply slot_in_range; unfold in_range in *; try lia; congruence).
    simpl. exists cleared. split; [|split; [assumption | auto]].
    f_equal. f_equal. lia.
  - simpl. rewrite rem_pos by lia. simpl.
    rewrite store_in_range
      by (apply slot_in_range; unfold in_range in *; try lia; congruence).
    simpl. exists (TargetToSource h). split; [|split; [reflexivity | auto]].
    f_equal. f_equal. lia.
Qed.

(** Whenever it returns, whatever the history, the watermark is the larger
    of the old one and the target. *)
Lemma mark_watermark h s t h' :
  markAttestationForTargetEpoch cfg h s t = Done h' ->
  LatestEpochWritten h' = Z.max (LatestEpochWritten h) t.
Proof.
  unfold markAttestationForTargetEpoch.
  destruct (Z.ltb_spec (LatestEpochWritten h) t) as [Hlt|Hge].
  - destruct (clearLoop _ _ _ _ _ _) as [cleared| |]; simpl; try discriminate.
    destruct (rem t period) as [slot| |]; simpl; try discriminate.
    destruct (store cleared slot s) as [written| |]; simpl; try discriminate.
    intros [= <-]. simpl. lia.
  - simpl.
    destruct (rem t period) as [slot| |]; simpl; try discriminate.
    destruct (store _ slot s) as [written| |]; simpl; try discriminate.
    intros [= <-]. simpl. lia.
Qed.

(** [safeTargetToSource] inside the window it accepts reads the slot. *)
Lemma safeTargetToSource_read h e x :
  0 < period ->
  (LatestEpochWritten h <? e)
  || (int e <? int_sub (int (LatestEpochWritten h)) (int period)) = false ->
  TargetToSource h !! Z.to_nat (e mod period) = Some x ->
  safeTargetToSource cfg h e = Done x.
Proof.
  intros Hp Hguard Hslot. unfold safeTargetToSource.
  rewrite Hguard, rem_pos by assumption. simpl.
  apply index_lookup. assumption.
Qed.

End Engine.

(** ** The scenarios of the specification, run on the code *)

Example end_to_end_double_vote :
  (let* h := markAttestationForTargetEpoch period8 (emptyHistory period8) 0 1 in
   isNewAttSlashable 100 period8 h 0 1) = Done true.
Proof. vm_compute. reflexivity. Qed.

Example end_to_end_next_vote :
  (let* h := markAttestationForTargetEpoch period8 (emptyHistory period8) 0 1 in
   isNewAttSlashable 100 period8 h 1 2) = Done false.
Proof. vm_compute. reflexivity. Qed.

Example end_to_end_surrounding :
  (let* h1 := markAttestationForTargetEpoch period8 (emptyHistory period8) 0 1 in
   let* h2 := markAttestationForTargetEpoch period8 h1 1 2 in
   isNewAttSlashable 100 period8 h2 0 3) = Done true.
Proof. vm_compute. reflexivity. Qed.

Example surrounding_vote_5_10 :
  (let* h := markAttestationForTargetEpoch mainnetConfig
               (emptyHistory mainnetConfig) 5 10 in
   isNewAttSlashable 100 mainnetConfig h 3 12) = Done true.
Proof. vm_compute. reflexivity. Qed.

Example pruned_target_not_slashable :
  isNewAttSlashable 100 (configOfPeriod 10)
    {| TargetToSource := replicate 10 7; LatestEpochWritten := 100 |} 3 89
  = Done false.
Proof. vm_compute. reflexivity. Qed.

Example commit_twice_is_commit_once :
  (let* h1 := markAttestationForTargetEpoch period8 (emptyHistory period8) 2 9 in
   markAttestationForTargetEpoch period8 h1 2 9)
  = markAttestationForTargetEpoch period8 (emptyHistory period8) 2 9.
Proof. vm_compute. reflexivity. Qed.

(** ** The bounds-checked read *)

(** Below [2^63] the read of the code and the read of the specification
    agree on every epoch but the one exactly [period] below the watermark. *)
Lemma safeTargetToSource_agrees_off_edge cfg h e :
  0 <= e < half -> 0 <= LatestEpochWritten h < half ->
  0 <= WeakSubjectivityPeriod cfg < half ->
  e <> LatestEpochWritten h - WeakSubjectivityPeriod cfg ->
  safeTargetToSource cfg h e = specSafeTargetToSource cfg h e.
Proof.
  intros He Hl Hp Hedge. unfold safeTargetToSource, specSafeTargetToSource.
  rewrite window_start_exact, (int_small e) by assumption.
  destruct (Z.ltb_spec (LatestEpochWritten h) e); simpl; [reflexivity|].
  destruct (Z.ltb_spec e (LatestEpochWritten h - WeakSubjectivityPeriod cfg)),
    (Z.leb_spec e (LatestEpochWritten h - WeakSubjectivityPeriod cfg));
    try reflexivity; lia.
Qed.

(** C3: the code at the epoch exactly [period] below the watermark.  With
    period 4 and watermark 10, epoch 6 satisfies [6 <= 10 - 4], so the
    specified read is the sentinel; the code compares with [<] and returns
    the content of slot [6 mod 4 = 2], which is the source 7 recorded for
    target 10. *)
Theorem safeTargetToSource_reads_at_window_edge :
  6 <= LatestEpochWritten history_wrapped - WeakSubjectivityPeriod period4
  /\ safeTargetToSource period4 history_wrapped 6 = Done 7
  /\ specSafeTargetToSource period4 history_wrapped 6 = Done farFutureEpoch.
Proof. split; [simpl; lia | split; reflexivity]. Qed.

(** ** Double votes *)

(** The double-vote check of [isNewAttSlashable] answers [true] when the
    slot of the target holds a source and the signed comparisons place the
    target inside the window. *)
Lemma isNewAttSlashable_double_vote cfg h t s :
  0 < WeakSubjectivityPeriod cfg < half ->
  in_range (LatestEpochWritten h) -> 0 <= t ->
  TargetToSource h !! Z.to_nat (t mod WeakSubjectivityPeriod cfg) = Some s ->
  s <> FarFutureEpoch cfg ->
  LatestEpochWritten h - WeakSubjectivityPeriod cfg < t <= LatestEpochWritten h ->
  t < half \/ half <= LatestEpochWritten h - WeakSubjectivityPeriod cfg ->
  forall fuel anySource, isNewAttSlashable fuel cfg h anySource t = Done true.
Proof.
  intros Hp Hl Ht Hslot Hs Hwin Hsigned fuel anySource.
  unfold isNewAttSlashable.
  assert (Hpruned :
    (int t <=? int_sub (int (LatestEpochWritten h)) (int (WeakSubjectivityPeriod cfg)))
    = false).
  { apply Z.leb_gt. u64_solve. }
  rewrite Hpruned.
  assert (Hguard :
    (LatestEpochWritten h <? t)
    || (int t <? int_sub (int (LatestEpochWritten h)) (int (WeakSubjectivityPeriod cfg)))
    = false).
  { apply orb_false_iff. apply Z.leb_gt in Hpruned.
    split; apply Z.ltb_ge; lia. }
  rewrite (safeTargetToSource_read cfg h t s) by (assumption || lia).
  simpl. destruct (Z.eqb_spec s (FarFutureEpoch cfg)); [contradiction | reflexivity].
Qed.

(** C4 (amended): in a history whose slot [t mod period] holds a source
    that is not the sentinel, with [t] in the retained window
    [latestEpochWritten - period < t <= latestEpochWritten], and with [t]
    below [2^63] or the start of the window at or above [2^63], every
    candidate with target [t] is slashable, whatever its source. *)
Theorem double_vote_detected cfg h t s :
  0 < WeakSubjectivityPeriod cfg < half ->
  in_range (LatestEpochWritten h) -> 0 <= t ->
  TargetToSource h !! Z.to_nat (t mod WeakSubjectivityPeriod cfg) = Some s ->
  s <> FarFutureEpoch cfg ->
  LatestEpochWritten h - WeakSubjectivityPeriod cfg < t <= LatestEpochWritten h ->
  t < half \/ half <= LatestEpochWritten h - WeakSubjectivityPeriod cfg ->
  forall fuel anySource, isNewAttSlashable fuel cfg h anySource t = Done true.
Proof. exact (isNewAttSlashable_double_vote cfg h t s). Qed.

Lemma double_vote_detected_witness :
  isNewAttSlashable 100 period4 history_wrapped 9 10 = Done true.
Proof.
  apply (double_vote_detected period4 history_wrapped 10 7).
  - vm_compute. split; reflexivity.
  - vm_compute. split; [discriminate | reflexivity].
  - lia.
  - reflexivity.
  - vm_compute. discriminate.
  - simpl. lia.
  - left. vm_compute. reflexivity.
Defined.

(** C4 as stated fails above [2^63]: with period 4 and watermark [2^63],
    slot 0 holds a vote for the target [2^63], the target is in the window,
    and the candidate is not flagged, because [int(targetEpoch)] is negative
    and the start of the window wraps to a positive [int]. *)
Lemma double_vote_missed_above_signed_range :
  TargetToSource history_huge !! Z.to_nat (2 ^ 63 mod WeakSubjectivityPeriod period4)
  = Some 5
  /\ 5 <> FarFutureEpoch period4
  /\ LatestEpochWritten history_huge - WeakSubjectivityPeriod period4 < 2 ^ 63
     <= LatestEpochWritten history_huge
  /\ isNewAttSlashable 100 period4 history_huge 5 (2 ^ 63) <> Done true.
Proof.
  split; [reflexivity|]. split; [vm_compute; discriminate|].
  split; [simpl; lia|]. vm_compute. discriminate.
Qed.

(** C5 (amended): from the empty history, after the commits (2, 9) and
    (5, 10), both candidates (6, 9) and (1, 9) are slashable: the slot of
    target 9 holds the source 2, so the double-vote check answers before the
    surround checks are reached.  This holds for every period from 2 up and
    every sentinel other than 2. *)
Theorem second_vote_for_target_9_slashable cfg fuel :
  2 <= WeakSubjectivityPeriod cfg < half ->
  FarFutureEpoch cfg <> 2 ->
  exists h1 h2,
    markAttestationForTargetEpoch cfg (emptyHistory cfg) 2 9 = Done h1
    /\ markAttestationForTargetEpoch cfg h1 5 10 = Done h2
    /\ isNewAttSlashable fuel cfg h2 6 9 = Done true
    /\ isNewAttSlashable fuel cfg h2 1 9 = Done true.
Proof.
  intros Hp Hfar.
  assert (Hpm : 0 < WeakSubjectivityPeriod cfg < modulus)
    by (rewrite modulus_eq; rewrite half_eq in Hp; lia).
  destruct (mark_done cfg (emptyHistory cfg) 2 9) as (c1 & Hm1 & Hlen1 & _);
    try assumption.
  { split; simpl; [apply length_replicate | u64_solve]. }
  { u64_solve. }
  simpl in Hm1, Hlen1. rewrite length_replicate in Hlen1.
  change (Z.max 0 9) with 9 in Hm1.
  set (h1 := {| TargetToSource := <[Z.to_nat (9 mod WeakSubjectivityPeriod cfg) := 2]> c1;
                LatestEpochWritten := 9 |}) in *.
  destruct (mark_done cfg h1 5 10) as (c2 & Hm2 & Hlen2 & Hc2); try assumption.
  { split; simpl; [rewrite length_insert; assumption | u64_solve]. }
  { u64_solve. }
  simpl in Hm2, Hlen2, Hc2. rewrite Hc2 in Hm2 by lia. clear c2 Hlen2 Hc2.
  change (Z.max 9 10) with 10 in Hm2.
  set (h2 := {| TargetToSource := _; LatestEpochWritten := 10 |}) in *.
  exists h1, h2. split; [assumption|]. split; [assumption|].
  assert (Hslot : TargetToSource h2 !! Z.to_nat (9 mod WeakSubjectivityPeriod cfg)
                  = Some 2).
  { subst h2 h1. cbn [TargetToSource].
    assert (H9 : 0 <= 9 mod WeakSubjectivityPeriod cfg < WeakSubjectivityPeriod cfg)
      by (apply Z.mod_pos_bound; lia).
    assert (H10 : 0 <= 10 mod WeakSubjectivityPeriod cfg < WeakSubjectivityPeriod cfg)
      by (apply Z.mod_pos_bound; lia).
    assert (Hne : 9 mod WeakSubjectivityPeriod cfg <> 10 mod WeakSubjectivityPeriod cfg)
      by (apply (consecutive_slots_differ 9); lia).
    rewrite list_lookup_insert_ne by lia.
    apply list_lookup_insert_eq. lia. }
  split; apply (isNewAttSlashable_double_vote cfg h2 9 2);
    try assumption; try (subst h2; simpl; u64_solve); try congruence.
Qed.

Lemma second_vote_for_target_9_slashable_witness :
  exists h1 h2,
    markAttestationForTargetEpoch mainnetConfig (emptyHistory mainnetConfig) 2 9
    = Done h1
    /\ markAttestationForTargetEpoch mainnetConfig h1 5 10 = Done h2
    /\ isNewAttSlashable 100 mainnetConfig h2 6 9 = Done true
    /\ isNewAttSlashable 100 mainnetConfig h2 1 9 = Done true.
Proof.
  apply (second_vote_for_target_9_slashable mainnetConfig 100).
  - vm_compute. split; [discriminate | reflexivity].
  - vm_compute. discriminate.
Defined.

(** C5 as stated fails: with period 4, after the commits (2, 9) and (5, 10)
    the candidate (6, 9) is slashable, where the claim has it not
    slashable. *)
Lemma candidate_6_9_is_flagged :
  ~ ((let* h1 := markAttestationForTargetEpoch period4 (emptyHistory period4) 2 9 in
      let* h2 := markAttestationForTargetEpoch period4 h1 5 10 in
      isNewAttSlashable 100 period4 h2 6 9) = Done false
     /\ (let* h1 := markAttestationForTargetEpoch period4 (emptyHistory period4) 2 9 in
         let* h2 := markAttestationForTargetEpoch period4 h1 5 10 in
         isNewAttSlashable 100 period4 h2 1 9) = Done true).
Proof. vm_compute. intros [H _]. discriminate H. Qed.

(** ** Commits *)

(** C7 (amended): on a history of the data model, for a target above the
    start of the retained window ([latestEpochWritten - period <
    targetEpoch], which covers every target above the watermark) that is
    below [2^63] or for which the larger of the watermark and the target is
    at least [2^63 + period], the commit returns and [safeTargetToSource] on
    its result for the same target is exactly the committed source. *)
Theorem commit_then_read cfg h sourceEpoch targetEpoch :
  wf_history cfg h ->
  0 < WeakSubjectivityPeriod cfg < half ->
  in_range targetEpoch ->
  LatestEpochWritten h - WeakSubjectivityPeriod cfg < targetEpoch ->
  targetEpoch < half
  \/ half + WeakSubjectivityPeriod cfg
     <= Z.max (LatestEpochWritten h) targetEpoch ->
  exists h',
    markAttestationForTargetEpoch cfg h sourceEpoch targetEpoch = Done h'
    /\ safeTargetToSource cfg h' targetEpoch = Done sourceEpoch.
Proof.
  intros Hwf Hp Ht Hwin Hsigned.
  destruct (mark_done cfg h sourceEpoch targetEpoch)
    as (cleared & Hmark & Hlen & _); try assumption.
  { rewrite modulus_eq. rewrite half_eq in Hp. lia. }
  eexists. split; [exact Hmark|].
  destruct Hwf as [Hwf Hlew].
  apply safeTargetToSource_read; simpl; try lia.
  - apply orb_false_iff. split; apply Z.ltb_ge; [lia|].
    destruct (Z.max_spec (LatestEpochWritten h) targetEpoch) as [[? ->]|[? ->]];
      u64_solve.
  - apply list_lookup_insert_eq. rewrite Hlen, Hwf.
    pose proof (Z.mod_pos_bound targetEpoch (WeakSubjectivityPeriod cfg)).
    unfold in_range in Ht. lia.
Qed.

Lemma commit_then_read_witness :
  exists h',
    markAttestationForTargetEpoch period4 history_at_3 9 10 = Done h'
    /\ safeTargetToSource period4 h' 10 = Done 9.
Proof.
  apply (commit_then_read period4 history_at_3 9 10).
  - split; [reflexivity | vm_compute; split; [discriminate | reflexivity]].
  - vm_compute. split; reflexivity.
  - vm_compute. split; [discriminate | reflexivity].
  - simpl. lia.
  - left. vm_compute. reflexivity.
Defined.

(** C7 as stated fails in two places.  Below the window: with period 4 and
    watermark 10, the commit of (1, 3) writes the slot of epoch 3, and the
    read of target 3 is the sentinel.  At the edge of the signed range: with
    period 4 and watermark 3, the commit of (1, 2^63) moves the watermark to
    [2^63], where [int(targetEpoch)] is negative and the start of the window
    wraps to a positive [int], and the read of target [2^63] is the
    sentinel. *)
Lemma commit_below_window_reads_sentinel :
  (exists h',
     markAttestationForTargetEpoch period4 history_at_10 1 3 = Done h'
     /\ safeTargetToSource period4 h' 3 = Done farFutureEpoch
     /\ safeTargetToSource period4 h' 3 <> Done 1)
  /\ (exists h',
        markAttestationForTargetEpoch period4 history_at_3 1 (2 ^ 63) = Done h'
        /\ LatestEpochWritten history_at_3 - WeakSubjectivityPeriod period4 < 2 ^ 63
        /\ safeTargetToSource period4 h' (2 ^ 63) = Done farFutureEpoch
        /\ safeTargetToSource period4 h' (2 ^ 63) <> Done 1).
Proof.
  split.
  - eexists. split; [vm_compute; reflexivity|].
    split; [vm_compute; reflexivity | vm_compute; discriminate].
  - eexists. split; [vm_compute; reflexivity|].
    split; [vm_compute; reflexivity|].
    split; [vm_compute; reflexivity | vm_compute; discriminate].
Qed.

(** C8 (amended): with period 4 and watermark 3, the commit of target 10
    resets the slots of the epochs 4 to 7, which are all four slots of the
    array, the slot [3 mod 4] that held epoch 3 among them (epoch 7 shares
    it); it then writes the source in slot [10 mod 4 = 2] and sets the
    watermark to 10. *)
Theorem gap_clear_resets_whole_ring cfg h sourceEpoch :
  WeakSubjectivityPeriod cfg = 4 ->
  length (TargetToSource h) = 4%nat ->
  LatestEpochWritten h = 3 ->
  markAttestationForTargetEpoch cfg h sourceEpoch 10
  = Done {| TargetToSource :=
              [FarFutureEpoch cfg; FarFutureEpoch cfg; sourceEpoch;
               FarFutureEpoch cfg];
            LatestEpochWritten := 10 |}.
Proof.
  destruct cfg as [far p], h as [tts lew]. simpl.
  intros -> Hlen ->.
  destruct tts as [|a [|b [|c [|d [|]]]]]; try discriminate.
  reflexivity.
Qed.

Lemma gap_clear_resets_whole_ring_witness :
  markAttestationForTargetEpoch period4 history_at_3 9 10
  = Done {| TargetToSource :=
              [farFutureEpoch; farFutureEpoch; 9; farFutureEpoch];
            LatestEpochWritten := 10 |}.
Proof.
  apply (gap_clear_resets_whole_ring period4 history_at_3 9); reflexivity.
Defined.

(** C8 as stated fails: the slot that holds epoch 3 is not the slot of the
    final write, and the commit changes it from the recorded source 2 to the
    sentinel. *)
Lemma gap_clear_touches_slot_of_epoch_3 :
  exists h',
    markAttestationForTargetEpoch period4 history_at_3 9 10 = Done h'
    /\ 3 mod 4 <> 10 mod 4
    /\ TargetToSource history_at_3 !! Z.to_nat (3 mod 4) = Some 2
    /\ TargetToSource h' !! Z.to_nat (3 mod 4) = Some farFutureEpoch
    /\ TargetToSource h' !! Z.to_nat (3 mod 4)
       <> TargetToSource history_at_3 !! Z.to_nat (3 mod 4).
Proof.
  eexists. split; [vm_compute; reflexivity|].
  split; [vm_compute; discriminate|].
  split; [reflexivity|]. split; [reflexivity|].
  vm_compute. discriminate.
Qed.

(** C9: whenever [markAttestationForTargetEpoch] returns, whatever the
    history, the watermark of the result is at least the watermark of the
    input, and the two are equal exactly when [targetEpoch] is at most the
    watermark of the input; and it does return on every history of the data
    model. *)
Theorem watermark_never_decreases cfg h sourceEpoch targetEpoch :
  (forall h',
     markAttestationForTargetEpoch cfg h sourceEpoch targetEpoch = Done h' ->
     LatestEpochWritten h <= LatestEpochWritten h'
     /\ (LatestEpochWritten h' = LatestEpochWritten h
         <-> targetEpoch <= LatestEpochWritten h))
  /\ (wf_history cfg h -> 0 < WeakSubjectivityPeriod cfg < modulus ->
      in_range targetEpoch ->
      exists h',
        markAttestationForTargetEpoch cfg h sourceEpoch targetEpoch = Done h').
Proof.
  split.
  - intros h' Hmark. apply mark_watermark in Hmark. lia.
  - intros Hwf Hp Ht.
    destruct (mark_done cfg h sourceEpoch targetEpoch) as (cleared & Hmark & _);
      try assumption.
    eexists. exact Hmark.
Qed.

Lemma watermark_never_decreases_witness :
  exists h',
    markAttestationForTargetEpoch period4 history_at_3 9 10 = Done h'
    /\ LatestEpochWritten history_at_3 <= LatestEpochWritten h'
    /\ (LatestEpochWritten h' = LatestEpochWritten history_at_3
        <-> 10 <= LatestEpochWritten history_at_3).
Proof.
  destruct (watermark_never_decreases period4 history_at_3 9 10) as [Hany Hret].
  destruct Hret as [h' Hmark].
  - split; [reflexivity | vm_compute; split; [discriminate | reflexivity]].
  - vm_compute. split; reflexivity.
  - vm_compute. split; [discriminate | reflexivity].
  - exists h'. split; [exact Hmark|]. apply Hany. exact Hmark.
Defined.

(** ** Targets above the signed range *)

(** C10: in a history with [period - 1 <= latestEpochWritten < 2^63], a
    candidate whose target is [2^63] or more is never slashable, whatever
    the source, the content of the history and the fuel: [int(targetEpoch)]
    is negative and falls at or below the start of the window. *)
Theorem huge_target_never_slashable cfg h sourceEpoch targetEpoch fuel :
  in_range (WeakSubjectivityPeriod cfg) ->
  0 <= LatestEpochWritten h ->
  WeakSubjectivityPeriod cfg - 1 <= LatestEpochWritten h < half ->
  half <= targetEpoch < modulus ->
  isNewAttSlashable fuel cfg h sourceEpoch targetEpoch = Done false.
Proof.
  intros Hp Hl0 Hl Ht. unfold isNewAttSlashable.
  assert (Hpruned :
    (int targetEpoch
     <=? int_sub (int (LatestEpochWritten h)) (int (WeakSubjectivityPeriod cfg)))
    = true).
  { apply Z.leb_le. u64_solve. }
  rewrite Hpruned. reflexivity.
Qed.

(** The instance of C10 at the sentinel itself, on mainnet. *)
Lemma huge_target_never_slashable_witness :
  isNewAttSlashable 0 mainnetConfig history_mainnet 0 farFutureEpoch = Done false.
Proof.
  apply (huge_target_never_slashable mainnetConfig history_mainnet 0 farFutureEpoch 0).
  - vm_compute. split; [discriminate | reflexivity].
  - simpl. lia.
  - vm_compute. split; [discriminate | reflexivity].
  - vm_compute. split; [discriminate | reflexivity].
Defined.

(** ** Traces: facts *)


Lemma only_after_nil Q G : only_after Q G [].
Proof. intros pre e post H. destruct pre; discriminate H. Qed.

Lemma only_after_snoc Q G tr e :
  only_after Q G tr -> (Q e = true -> G tr e) -> only_after Q G (tr ++ [e]).
Proof.
  intros Htr He pre e' post Heq HQ.
  destruct post as [|x post _] using rev_ind.
  - apply app_inj_tail in Heq as [-> ->]. auto.
  - change (pre ++ e' :: post ++ [x]) with (pre ++ (e' :: post) ++ [x]) in Heq.
    rewrite app_assoc in Heq. apply app_inj_tail in Heq as [-> _].
    apply (Htr pre e' post); auto.
Qed.

Lemma only_after_app Q G tr ext :
  only_after Q G tr -> Forall (fun e => Q e = false) ext ->
  only_after Q G (tr ++ ext).
Proof.
  intros Htr Hext. induction ext as [|x ext IH] using rev_ind.
  - rewrite app_nil_r. assumption.
  - apply Forall_app in Hext as [Hext Hx]. rewrite app_assoc.
    apply only_after_snoc; [auto|].
    intros HQ. apply Forall_inv in Hx. congruence.
Qed.

(** ** The orchestrator: facts *)


Section Post.

Context {A B : Type}.

Lemma post_ret (a : A) w Q R : Q a w -> post (ret a) w Q R.
Proof. auto. Qed.

Lemma post_return w (Q : A -> world -> Prop) (R : world -> Prop) :
  R w -> post return_ w Q R.
Proof. auto. Qed.

Lemma post_exhausted w (Q : A -> world -> Prop) (R : world -> Prop) :
  R w -> post exhausted w Q R.
Proof. auto. Qed.

Lemma post_bind (m : M A) (k : A -> M B) w Q R :
  post m w (fun a w' => post (k a) w' Q R) R -> post (bind m k) w Q R.
Proof.
  unfold post, bind. destruct (m w) as [w' [a| | |]]; auto.
Qed.

Lemma post_call (ask : list event -> A) record w Q R :
  (forall r, Q r (snoc_event w (record r))) ->
  post (call ask record) w Q R.
Proof. intros H. apply H. Qed.

Lemma post_lift (o : outcome A) w (Q : A -> world -> Prop) (R : world -> Prop) :
  (forall a, o = Done a -> Q a w) -> R w -> post (lift o) w Q R.
Proof. unfold post, lift. destruct o; auto. Qed.

Lemma post_abandon v fmtKey msg w (Q : A -> world -> Prop) (R : world -> Prop) :
  R (snoc_event w (EvLogError msg)) ->
  R (snoc_event (snoc_event w (EvLogError msg)) (EvFailMetric fmtKey)) ->
  post (abandon v fmtKey msg) w Q R.
Proof.
  unfold post, abandon, bind, emit, when, return_, ret.
  destruct (emitAccountMetrics v); simpl; auto.
Qed.

Lemma post_orAbandon v fmtKey msg (r : option A) w Q R :
  (forall a, r = Some a -> Q a w) ->
  R (snoc_event w (EvLogError msg)) ->
  R (snoc_event (snoc_event w (EvLogError msg)) (EvFailMetric fmtKey)) ->
  post (orAbandon v fmtKey msg r) w Q R.
Proof.
  intros HQ H1 H2. destruct r; simpl; [apply post_ret | apply post_abandon]; auto.
Qed.

End Post.

Lemma post_emit e w Q R : Q tt (snoc_event w e) -> post (emit e) w Q R.
Proof. auto. Qed.

Lemma post_when (b : bool) m w Q R :
  (b = true -> post m w Q R) -> (b = false -> Q tt w) -> post (when b m) w Q R.
Proof.
  intros Hm Hskip. destruct b; simpl; [apply Hm | apply post_ret, Hskip]; reflexivity.
Qed.

(** The loop that asks for the second attestation data only adds requests
    to the beacon node, error lines and failure counts to the trace, and
    leaves the log map as it is. *)
Lemma post_fetchSecond fuel v fmtKey slot committeeIndex data1 :
  forall data2 w (Q : AttestationData -> world -> Prop) (R : world -> Prop),
  (forall ext,
     Forall (fun e => is_quiet e = true) ext ->
     let w' := {| trace := trace w ++ ext; attLogs := attLogs w |} in
     (forall next, Q next w') /\ R w') ->
  post (fetchSecond fuel v fmtKey slot committeeIndex data1 data2) w Q R.
Proof.
  assert (Hsame : forall w, {| trace := trace w ++ []; attLogs := attLogs w |} = w).
  { intros [tr lg]. simpl. rewrite app_nil_r. reflexivity. }
  assert (Hnil : Forall (fun e => is_quiet e = true) []) by constructor.
  induction fuel as [|fuel IH]; intros data2 w Q R H; simpl.
  - destruct (H [] Hnil) as [HQ HR]. rewrite Hsame in HQ, HR.
    destruct (Epoch (Source data1) =? Epoch (Source data2));
      [apply post_exhausted | apply post_ret]; auto.
  - destruct (Epoch (Source data1) =? Epoch (Source data2)).
    + apply post_bind, post_call. intros res.
      apply post_bind, post_orAbandon.
      * intros next _. apply IH. intros ext Hext. unfold snoc_event. simpl.
        rewrite <- app_assoc. apply (H (_ :: ext)). constructor; auto.
      * unfold snoc_event. simpl. rewrite <- app_assoc.
        apply H. repeat constructor.
      * unfold snoc_event. simpl. rewrite <- !app_assoc.
        apply H. repeat constructor.
    + destruct (H [] Hnil) as [HQ HR]. rewrite Hsame in HQ.
      apply post_ret; auto.
Qed.

Lemma post_signAtt v pubKey att w (Q : option bytes -> world -> Prop) R :
  (forall d r s,
     let w1 := snoc_event w (EvDomainData (Epoch (Target att)) d) in
     Q None w1 /\ Q r (snoc_event w1 (EvSign pubKey s (default [] d) r))) ->
  post (signAtt v pubKey att) w Q R.
Proof.
  intros H. unfold signAtt. apply post_bind, post_call.
  intros [dom|].
  - destruct (HashTreeRoot (env v) att) as [root|].
    + apply post_call. intros r. apply (H (Some dom) r root).
    + apply post_ret. apply (H (Some dom) None []).
  - apply post_ret. apply (H None None []).
Qed.

Lemma post_getAttLogs w Q R : Q (attLogs w) w -> post getAttLogs w Q R.
Proof. auto. Qed.

Lemma post_setAttLogs logs w Q R :
  Q tt {| trace := trace w; attLogs := logs |} -> post (setAttLogs logs) w Q R.
Proof. auto. Qed.

(** One step of the execution of [SubmitAttestation] under [post], chosen
    by the head of the computation. *)
Ltac post_step :=
  lazymatch goal with
  | |- post (bind _ _) _ _ _ => apply post_bind
  | |- post (call _ _) _ _ _ => apply post_call; intros ?
  | |- post (emit _) _ _ _ => apply post_emit
  | |- post (ret _) _ _ _ => apply post_ret
  | |- post return_ _ _ _ => apply post_return
  | |- post getAttLogs _ _ _ => apply post_getAttLogs
  | |- post (setAttLogs _) _ _ _ => apply post_setAttLogs
  | |- post (orAbandon _ _ _ _) _ _ _ =>
      apply post_orAbandon;
      [ let H := fresh "Hsome" in
        intros ? H; first [discriminate H | subst | idtac] | | ]
  | |- post (abandon _ _ _) _ _ _ => apply post_abandon
  | |- post (fetchSecond _ _ _ _ _ _ _) _ _ _ =>
      apply post_fetchSecond; intros ? ?; cbv zeta; split; [intros ?|]
  | |- post (signAtt _ _ _) _ _ _ =>
      apply post_signAtt; intros ? ? ?; cbv zeta; split
  | |- post (lift _) _ _ _ => apply post_lift; [intros ? ? | ]
  | |- post (when _ _) _ _ _ => apply post_when; intros ?
  | |- post (if ?b then _ else _) _ _ _ => destruct b eqn:?
  | |- post (match ?x with _ => _ end) _ _ _ => destruct x eqn:?
  end.


Lemma quiet_not_save ext :
  Forall (fun e => is_quiet e = true) ext -> Forall (fun e => is_save e = false) ext.
Proof.
  intros Hq. eapply Forall_impl; [exact Hq|].
  intros [] H; try reflexivity; discriminate H.
Qed.

Lemma quiet_not_submission ext :
  Forall (fun e => is_quiet e = true) ext ->
  Forall (fun e => is_submission e = false) ext.
Proof.
  intros Hq. eapply Forall_impl; [exact Hq|].
  intros [] H; try reflexivity; discriminate H.
Qed.

Lemma quiet_not_signing ext :
  Forall (fun e => is_quiet e = true) ext ->
  Forall (fun e => is_signing e = false) ext.
Proof.
  intros Hq. eapply Forall_impl; [exact Hq|].
  intros [] H; try reflexivity; discriminate H.
Qed.

Lemma quiet_no_submission ext :
  Forall (fun e => is_quiet e = true) ext -> List.filter is_submission ext = [].
Proof.
  induction 1 as [|e ext He _ IH]; [reflexivity|].
  simpl. rewrite IH. destruct e; try reflexivity; discriminate He.
Qed.

(** Finds an event in a trace built by appending, from its end. *)
Ltac find_event :=
  first
    [ apply in_or_app; right; left; reflexivity
    | apply in_or_app; left; find_event ].

(** The events before the check, the signatures and the submissions do not
    matter to [only_after]: peels the events off the end of the trace. *)
Ltac peel_trace :=
  repeat (apply only_after_snoc; [| let H := fresh "HQ" in intros H; try discriminate H]);
  try (apply only_after_app;
       [ repeat (apply only_after_snoc; [| let H := fresh "HQ" in intros H; try discriminate H]);
         try apply only_after_nil
       | first [apply quiet_not_save | apply quiet_not_submission
               | apply quiet_not_signing]; assumption ]);
  try apply only_after_nil.

Lemma SubmitAttestation_safe fuel cfg flags v slot pubKey w :
  ProtectAttester flags = true -> trace w = [] ->
  post (SubmitAttestation fuel cfg flags v slot pubKey) w
    (fun _ w' => safe_trace cfg (trace w')) (fun w' => safe_trace cfg (trace w')).
Proof.
  intros Hp Hw. unfold SubmitAttestation, saveAttesterIndexToData. rewrite Hp.
  repeat post_step.
  all: unfold snoc_event in *; cbn [trace attLogs] in *; rewrite ?Hw in *.
  all: split; [|split]; peel_trace.
  all: try (unfold consulted; do 2 eexists; find_event).
  all: split.
  all: try (unfold both_accepted; rewrite !List.filter_app;
            match goal with
            | Hq : Forall _ ?ext |- _ => rewrite (quiet_no_submission ext Hq)
            end;
            simpl; do 4 eexists; reflexivity).
  all: match goal with
       | Hm : markAttestationForTargetEpoch _ ?h _ _ = Done ?m
         |- records_accepted _ ?tr (EvSaveAttestationHistory ?pk ?m ?ok) =>
           match tr with
           | context [EvProposeAttestation ?att (Some ?r)] =>
               exists pk, h, m, ok, att, r;
               split; [reflexivity|];
               split; [find_event|];
               split; [find_event | exact Hm]
           end
       end.
Qed.

(** The order of the protected attempt: in every execution of
    [SubmitAttestation] with slashing protection enabled, whatever the collaborators answer and however the execution
    ends, (1) wherever the history is saved, exactly two attestations
    were submitted before and both were accepted, and the history saved is a
    history loaded before with one accepted attestation marked; (2) wherever
    an attestation is submitted, [isNewAttSlashable] was consulted before in
    the execution and answered [false]. *)
Theorem save_after_submission_after_check fuel cfg flags v slot pubKey logs :
  ProtectAttester flags = true ->
  only_after is_save
    (fun pre e => both_accepted pre /\ records_accepted cfg pre e)
    (execution fuel cfg flags v slot pubKey logs)
  /\ only_after is_submission (fun pre _ => consulted pre)
       (execution fuel cfg flags v slot pubKey logs).
Proof.
  intros Hp. unfold execution.
  pose proof (SubmitAttestation_safe fuel cfg flags v slot pubKey
                {| trace := []; attLogs := logs |} Hp eq_refl) as H.
  unfold post, safe_trace in H.
  destruct (SubmitAttestation _ _ _ _ _ _ _) as [w' [[]| | |]];
    destruct H as (Hsave & Hsubmit & _); split; assumption.
Qed.

Lemma save_after_submission_after_check_witness :
  only_after is_save
    (fun pre e => both_accepted pre /\ records_accepted period8 pre e)
    (execution 10 period8 protecting attester 200 key ∅)
  /\ only_after is_submission (fun pre _ => consulted pre)
       (execution 10 period8 protecting attester 200 key ∅).
Proof.
  apply (save_after_submission_after_check 10 period8 protecting attester 200 key ∅).
  reflexivity.
Defined.

(** C2: the code on the run of C1.  The attestation with the vote (3, 6)
    is submitted, and accepted, although no call of [isNewAttSlashable] for
    (3, 6) precedes it: the only call in the execution is for (4, 6).  So a
    vote is submitted without being checked. *)
Theorem second_vote_submitted_unchecked :
  (exists pre post,
     execution 10 period8 protecting attester 200 key ∅
     = pre ++ EvProposeAttestation (attestationOf (dataOf 3 6)) (Some []) :: post
     /\ forall e, In e pre -> forall res, e <> EvIsNewAttSlashable 3 6 res)
  /\ ~ only_after is_submission vote_checked
         (execution 10 period8 protecting attester 200 key ∅).
Proof.
  assert (Hrun :
    execution 10 period8 protecting attester 200 key ∅
    = [ EvGetAttestationData 200 0 (Some (dataOf 4 6));
        EvGetAttestationData 200 0 (Some (dataOf 3 6));
        EvAttestationHistory key (Some history_voted);
        EvIsNewAttSlashable 4 6 false;
        EvDomainData 6 (Some []);
        EvSign key [] [] (Some []);
        EvDomainData 6 (Some []);
        EvSign key [] [] (Some []);
        EvProposeAttestation (attestationOf (dataOf 4 6)) (Some []) ]
      ++ EvProposeAttestation (attestationOf (dataOf 3 6)) (Some [])
      :: [ EvLogInfo "Successfully submitted attestation 1" [] 4;
           EvLogInfo "Successfully submitted attestation 2" [] 3;
           EvAttestationHistory key (Some history_voted);
           EvSaveAttestationHistory key
             {| TargetToSource := <[6%nat := 4]> (TargetToSource history_voted);
                LatestEpochWritten := 6 |} true ]).
  { vm_compute. reflexivity. }
  split.
  - eexists. eexists. split; [exact Hrun|].
    intros e He res. simpl in He.
    repeat (destruct He as [<-|He]; [discriminate|]). destruct He.
  - intros Hall. rewrite Hrun in Hall.
    destruct (Hall _ _ _ eq_refl eq_refl) as (att & res & Heq & Hin).
    injection Heq as <- _. simpl in Hin.
    repeat (destruct Hin as [Hin|Hin]; [discriminate Hin|]). destruct Hin.
Qed.

(** With slashing protection enabled nothing is signed before the check
    answered [false]: an attempt whose first candidate is slashable signs and
    submits nothing. *)
Lemma signing_only_after_check fuel cfg flags v slot pubKey logs :
  ProtectAttester flags = true ->
  only_after is_signing (fun pre _ => consulted pre)
    (execution fuel cfg flags v slot pubKey logs).
Proof.
  intros Hp. unfold execution.
  pose proof (SubmitAttestation_safe fuel cfg flags v slot pubKey
                {| trace := []; attLogs := logs |} Hp eq_refl) as H.
  unfold post, safe_trace in H.
  destruct (SubmitAttestation _ _ _ _ _ _ _) as [w' [[]| | |]];
    destruct H as (_ & _ & Hsign); assumption.
Qed.

(** ** The second candidate *)

(** C1: the code on a run where the second candidate is slashable.  The
    history holds the vote (4, 5); the first candidate (4, 6) is not
    slashable, the second (3, 6) is (it surrounds the vote).  Only the first
    is checked, and both are signed and submitted. *)
Theorem slashable_second_candidate_signed_and_submitted :
  isNewAttSlashable 10 period8 history_voted 4 6 = Done false
  /\ isNewAttSlashable 10 period8 history_voted 3 6 = Done true
  /\ execution 10 period8 protecting attester 200 key ∅
     = [ EvGetAttestationData 200 0 (Some (dataOf 4 6));
         EvGetAttestationData 200 0 (Some (dataOf 3 6));
         EvAttestationHistory key (Some history_voted);
         EvIsNewAttSlashable 4 6 false;
         EvDomainData 6 (Some []);
         EvSign key [] [] (Some []);
         EvDomainData 6 (Some []);
         EvSign key [] [] (Some []);
         EvProposeAttestation (attestationOf (dataOf 4 6)) (Some []);
         EvProposeAttestation (attestationOf (dataOf 3 6)) (Some []);
         EvLogInfo "Successfully submitted attestation 1" [] 4;
         EvLogInfo "Successfully submitted attestation 2" [] 3;
         EvAttestationHistory key (Some history_voted);
         EvSaveAttestationHistory key
           {| TargetToSource := <[6%nat := 4]> (TargetToSource history_voted);
              LatestEpochWritten := 6 |} true ].
Proof. split; [|split]; vm_compute; reflexivity. Qed.

(** C6: the code on a run where the two candidates have different targets.
    The beacon node gives (4, 6) and then (3, 7) and accepts both
    attestations.  The history that is saved is the loaded one with (4, 6)
    marked.  It is not the history with both candidates marked, in either
    order: it holds no vote for target 7, and a second vote for target 7
    passes the check on it. *)
Theorem accepted_second_candidate_not_marked :
  exists marked,
    In (EvProposeAttestation (attestationOf (dataOf 4 6)) (Some []))
       (execution 10 period8 protecting attester_two_targets 200 key ∅)
    /\ In (EvProposeAttestation (attestationOf (dataOf 3 7)) (Some []))
          (execution 10 period8 protecting attester_two_targets 200 key ∅)
    /\ In (EvSaveAttestationHistory key marked true)
          (execution 10 period8 protecting attester_two_targets 200 key ∅)
    /\ markAttestationForTargetEpoch period8 history_voted 4 6 = Done marked
    /\ (let* first := markAttestationForTargetEpoch period8 history_voted 4 6 in
        markAttestationForTargetEpoch period8 first 3 7) <> Done marked
    /\ (let* first := markAttestationForTargetEpoch period8 history_voted 3 7 in
        markAttestationForTargetEpoch period8 first 4 6) <> Done marked
    /\ safeTargetToSource period8 marked 7 = Done farFutureEpoch
    /\ isNewAttSlashable 10 period8 marked 6 7 = Done false.
Proof.
  eexists.
  split; [vm_compute; tauto|]. split; [vm_compute; tauto|].
  split; [vm_compute; repeat (first [left; reflexivity | right])|].
  split; [vm_compute; reflexivity|].
  split; [vm_compute; discriminate|]. split; [vm_compute; discriminate|].
  split; vm_compute; reflexivity.
Qed.

(** ** The ring buffer: which slots a commit writes *)

(** Two epochs less than [period] apart do not share a slot. *)
Lemma distinct_slots a b p : 0 < a - b < p -> a mod p <> b mod p.
Proof.
  intros Hd Heq.
  assert (H0 : (a - b) mod p = 0).
  { rewrite Zminus_mod, Heq, Z.sub_diag. apply Z.mod_0_l. lia. }
  rewrite Z.mod_small in H0; lia.
Qed.

Lemma distinct_slots_nat a b p :
  0 <= b -> 0 < a - b < p -> Z.to_nat (a mod p) <> Z.to_nat (b mod p).
Proof.
  intros Hb Hd Heq. apply (distinct_slots a b p Hd).
  pose proof (Z.mod_pos_bound a p). pose proof (Z.mod_pos_bound b p). lia.
Qed.

Section Ring.

Variable cfg : BeaconChainConfig.

Notation "'period'" := (WeakSubjectivityPeriod cfg).
Notation "'far'" := (FarFutureEpoch cfg).

(** The gap-clearing loop sets the slot of every epoch it visits to the
    sentinel, leaves a slot that no visited epoch maps to as it was, and
    writes nothing but the sentinel. *)
Lemma clearLoop_spec fuel : forall t m i (s : list Z),
  0 < period -> length s = Z.to_nat period ->
  0 <= i -> t < modulus -> m + 1 - i <= Z.of_nat fuel ->
  exists s',
    clearLoop fuel cfg t m i s = Done s'
    /\ length s' = length s
    /\ (forall e, i <= e < t -> e <= m -> s' !! Z.to_nat (e mod period) = Some far)
    /\ (forall j, (forall e, i <= e < t -> e <= m -> Z.to_nat (e mod period) <> j) ->
                  s' !! j = s !! j)
    /\ (forall j, s' !! j = s !! j \/ s' !! j = Some far).
Proof.
  induction fuel as [|fuel IH]; intros t m i s Hp Hlen Hi Ht Hfuel.
  - exists s. split.
    { apply clearLoop_exit. apply andb_false_iff. right. apply Z.leb_gt. lia. }
    split; [reflexivity|]. split; [intros; lia|]. split; auto.
  - simpl. destruct ((i <? t) && (i <=? m)) eqn:Hguard.
    + apply andb_true_iff in Hguard as [Hit Him].
      apply Z.ltb_lt in Hit. apply Z.leb_le in Him.
      rewrite rem_pos by assumption. simpl.
      assert (Hslot : (Z.to_nat (i mod period) < length s)%nat)
        by (apply slot_in_range; assumption).
      rewrite store_in_range by assumption. simpl.
      rewrite u64_small by (unfold in_range; lia).
      destruct (IH t m (i + 1) (<[Z.to_nat (i mod period) := far]> s))
        as (s' & Hrun & Hlen' & Hset & Hkeep & Hany); try lia.
      { rewrite length_insert. assumption. }
      exists s'. split; [assumption|].
      split; [rewrite Hlen', length_insert; reflexivity|].
      split; [|split].
      * intros e He Hem. destruct (Z.eq_dec e i) as [->|Hne].
        -- destruct (Hany (Z.to_nat (i mod period))) as [Hsame|Hfar]; [|assumption].
           rewrite Hsame. apply list_lookup_insert_eq. assumption.
        -- apply Hset; lia.
      * intros j Hj. rewrite Hkeep by (intros e He Hem; apply Hj; lia).
        apply list_lookup_insert_ne. apply Hj; lia.
      * intros j. destruct (Hany j) as [Hsame|Hfar]; [|right; assumption].
        destruct (decide (Z.to_nat (i mod period) = j)) as [<-|Hne].
        -- right. rewrite Hsame. apply list_lookup_insert_eq. assumption.
        -- left. rewrite Hsame. apply list_lookup_insert_ne. assumption.
    + exists s. split; [reflexivity|]. split; [reflexivity|].
      split; [|split; auto].
      intros e He Hem. apply andb_false_iff in Hguard as [H|H];
        [apply Z.ltb_ge in H | apply Z.leb_gt in H]; lia.
Qed.

(** [markAttestationForTargetEpoch] on a history of the data model whose
    watermark plus the period does not overflow: the array of the result is
    the array after the gap-clearing, with the source in the slot of the
    target. *)
Lemma mark_spec h s t :
  wf_history cfg h -> 0 < period ->
  LatestEpochWritten h + period < modulus -> in_range t ->
  exists cleared,
    markAttestationForTargetEpoch cfg h s t
    = Done {| TargetToSource := <[Z.to_nat (t mod period) := s]> cleared;
              LatestEpochWritten := Z.max (LatestEpochWritten h) t |}
    /\ length cleared = length (TargetToSource h)
    /\ (t <= LatestEpochWritten h + 1 -> cleared = TargetToSource h)
    /\ (forall e, LatestEpochWritten h < e < t ->
                  e <= LatestEpochWritten h + period ->
                  cleared !! Z.to_nat (e mod period) = Some far)
    /\ (forall j, (forall e, LatestEpochWritten h < e < t ->
                             e <= LatestEpochWritten h + period ->
                             Z.to_nat (e mod period) <> j) ->
                  cleared !! j = TargetToSource h !! j).
Proof.
  intros [Hlen Hlew] Hp Hsum Ht. unfold markAttestationForTargetEpoch.
  destruct (Z.ltb_spec (LatestEpochWritten h) t) as [Hlt|Hge].
  - rewrite (u64_small (LatestEpochWritten h + 1)) by (unfold in_range in *; lia).
    rewrite (u64_small (LatestEpochWritten h + period))
      by (unfold in_range in *; lia).
    destruct (clearLoop_spec (Z.to_nat period) t (LatestEpochWritten h + period)
                (LatestEpochWritten h + 1) (TargetToSource h))
      as (cleared & Hrun & Hlen' & Hset & Hkeep & _);
      try assumption; try (unfold in_range in *; lia).
    rewrite Hrun. simpl. rewrite rem_pos by lia. simpl.
    rewrite store_in_range
      by (apply slot_in_range; unfold in_range in *; try lia; congruence).
    simpl. exists cleared. split; [f_equal; f_equal; lia|].
    split; [assumption|]. split; [|split].
    + intros Hnext. apply list_eq. intros j. apply Hkeep. intros; lia.
    + intros e He Hem. apply Hset; lia.
    + intros j Hj. apply Hkeep. intros e He Hem. apply Hj; lia.
  - simpl. rewrite rem_pos by lia. simpl.
    rewrite store_in_range
      by (apply slot_in_range; unfold in_range in *; try lia; congruence).
    simpl. exists (TargetToSource h). split; [f_equal; f_equal; lia|].
    split; [reflexivity|]. split; [reflexivity|]. split; [intros; lia | auto].
Qed.

End Ring.

(** ** The engine on histories of the data model *)

(** X1: a target at or below the start of the retained window is never
    slashable, whatever the history holds. *)
Theorem pruned_target_never_slashable cfg h sourceEpoch targetEpoch fuel :
  0 <= WeakSubjectivityPeriod cfg < half ->
  0 <= LatestEpochWritten h < half ->
  0 <= targetEpoch ->
  targetEpoch <= LatestEpochWritten h - WeakSubjectivityPeriod cfg ->
  isNewAttSlashable fuel cfg h sourceEpoch targetEpoch = Done false.
Proof.
  intros Hp Hl Ht Hpruned. unfold isNewAttSlashable.
  rewrite window_start_exact, int_small by lia.
  destruct (Z.leb_spec targetEpoch
              (LatestEpochWritten h - WeakSubjectivityPeriod cfg)); [reflexivity | lia].
Qed.

Lemma pruned_target_never_slashable_witness :
  isNewAttSlashable 0 period4 history_wrapped 1 6 = Done false.
Proof.
  apply (pruned_target_never_slashable period4 history_wrapped 1 6 0).
  - vm_compute. split; [discriminate | reflexivity].
  - vm_compute. split; [discriminate | reflexivity].
  - lia.
  - simpl. lia.
Defined.

(** X2: a commit keeps the history in the data model: the array keeps its
    [period] slots and the watermark stays a [uint64]. *)
Theorem commit_keeps_data_model cfg h sourceEpoch targetEpoch :
  wf_history cfg h ->
  0 < WeakSubjectivityPeriod cfg < modulus -> in_range targetEpoch ->
  exists h',
    markAttestationForTargetEpoch cfg h sourceEpoch targetEpoch = Done h'
    /\ wf_history cfg h'.
Proof.
  intros Hwf Hp Ht.
  destruct (mark_done cfg h sourceEpoch targetEpoch) as (cleared & Hmark & Hlen & _);
    try assumption.
  eexists. split; [exact Hmark|]. destruct Hwf as [Hwf Hlew].
  split; simpl.
  - rewrite length_insert. congruence.
  - unfold in_range in *. lia.
Qed.

Lemma commit_keeps_data_model_witness :
  exists h',
    markAttestationForTargetEpoch period4 history_at_3 9 10 = Done h'
    /\ wf_history period4 h'.
Proof.
  apply (commit_keeps_data_model period4 history_at_3 9 10).
  - split; [reflexivity | vm_compute; split; [discriminate | reflexivity]].
  - vm_compute. split; reflexivity.
  - vm_compute. split; [discriminate | reflexivity].
Defined.

(** X3: a commit whose target is at most one above the watermark clears
    nothing: it changes the slot of the target and no other slot. *)
Theorem commit_without_gap_writes_one_slot cfg h sourceEpoch targetEpoch :
  wf_history cfg h ->
  0 < WeakSubjectivityPeriod cfg < modulus -> in_range targetEpoch ->
  targetEpoch <= LatestEpochWritten h + 1 ->
  exists h',
    markAttestationForTargetEpoch cfg h sourceEpoch targetEpoch = Done h'
    /\ TargetToSource h' !! Z.to_nat (targetEpoch mod WeakSubjectivityPeriod cfg)
       = Some sourceEpoch
    /\ forall j, j <> Z.to_nat (targetEpoch mod WeakSubjectivityPeriod cfg) ->
                 TargetToSource h' !! j = TargetToSource h !! j.
Proof.
  intros Hwf Hp Ht Hnext.
  destruct (mark_done cfg h sourceEpoch targetEpoch)
    as (cleared & Hmark & Hlen & Hsame); try assumption.
  rewrite Hsame in * by assumption.
  eexists. split; [exact Hmark|]. destruct Hwf as [Hwf Hlew]. simpl. split.
  - apply list_lookup_insert_eq. rewrite Hwf.
    pose proof (Z.mod_pos_bound targetEpoch (WeakSubjectivityPeriod cfg)). lia.
  - intros j Hj. apply list_lookup_insert_ne. congruence.
Qed.

Lemma commit_without_gap_writes_one_slot_witness :
  exists h',
    markAttestationForTargetEpoch period4 history_at_3 3 4 = Done h'
    /\ TargetToSource h' !! Z.to_nat (4 mod WeakSubjectivityPeriod period4) = Some 3
    /\ forall j, j <> Z.to_nat (4 mod WeakSubjectivityPeriod period4) ->
                 TargetToSource h' !! j = TargetToSource history_at_3 !! j.
Proof.
  apply (commit_without_gap_writes_one_slot period4 history_at_3 3 4).
  - split; [reflexivity | vm_compute; split; [discriminate | reflexivity]].
  - vm_compute. split; reflexivity.
  - vm_compute. split; [discriminate | reflexivity].
  - simpl. lia.
Defined.

(** The slot of an epoch of the gap is the slot of one of the epochs that
    the loop visits. *)
Lemma gap_epoch_visited lew t p e :
  0 < p -> lew < e < t ->
  exists e', lew < e' < t /\ e' <= lew + p /\ e' mod p = e mod p.
Proof.
  intros Hp He. exists (lew + 1 + (e - lew - 1) mod p).
  pose proof (Z.mod_pos_bound (e - lew - 1) p Hp) as Hb.
  pose proof (Z.mod_le (e - lew - 1) p ltac:(lia) Hp) as Hle.
  split; [lia|]. split; [lia|].
  rewrite Zplus_mod, Zmod_mod, <- Zplus_mod. f_equal. lia.
Qed.

(** X4: after a commit above the watermark, every epoch strictly between
    the old watermark and the target that is in the new window reads as
    not voted, whatever its slot held before. *)
Theorem commit_clears_gap cfg h sourceEpoch targetEpoch e :
  wf_history cfg h ->
  0 < WeakSubjectivityPeriod cfg < half ->
  LatestEpochWritten h < e < targetEpoch -> targetEpoch < half ->
  targetEpoch - WeakSubjectivityPeriod cfg < e ->
  exists h',
    markAttestationForTargetEpoch cfg h sourceEpoch targetEpoch = Done h'
    /\ safeTargetToSource cfg h' e = Done (FarFutureEpoch cfg).
Proof.
  intros Hwf Hp He Ht Hwin.
  pose proof Hwf as [Hlen Hlew].
  destruct (mark_spec cfg h sourceEpoch targetEpoch)
    as (cleared & Hmark & Hlen' & _ & Hset & _); try assumption;
    try (u64_unfold; lia).
  eexists. split; [exact Hmark|].
  destruct (gap_epoch_visited (LatestEpochWritten h) targetEpoch
              (WeakSubjectivityPeriod cfg) e) as (e' & He' & Hbound & Hslot);
    try lia.
  apply safeTargetToSource_read; simpl; try lia.
  - apply orb_false_iff. split; apply Z.ltb_ge; [lia|].
    replace (Z.max (LatestEpochWritten h) targetEpoch) with targetEpoch by lia.
    u64_solve.
  - rewrite list_lookup_insert_ne
      by (apply distinct_slots_nat; unfold in_range in *; lia).
    rewrite <- Hslot. apply Hset; lia.
Qed.

Lemma commit_clears_gap_witness :
  exists h',
    markAttestationForTargetEpoch period4 history_at_3 9 10 = Done h'
    /\ safeTargetToSource period4 h' 7 = Done (FarFutureEpoch period4).
Proof.
  apply (commit_clears_gap period4 history_at_3 9 10 7).
  - split; [reflexivity | vm_compute; split; [discriminate | reflexivity]].
  - vm_compute. split; reflexivity.
  - simpl. lia.
  - vm_compute. reflexivity.
  - simpl. lia.
Defined.

(** X5: a commit for a target above the start of the window does not
    disturb the other votes of the new window: for every epoch other than the
    target that is at most the old watermark and inside the window after the
    commit, the read is the same before and after. *)
Theorem commit_keeps_votes_in_window cfg h sourceEpoch targetEpoch e :
  wf_history cfg h ->
  0 < WeakSubjectivityPeriod cfg < half ->
  LatestEpochWritten h < half -> 0 <= targetEpoch < half ->
  LatestEpochWritten h - WeakSubjectivityPeriod cfg < targetEpoch ->
  0 <= e <= LatestEpochWritten h -> e <> targetEpoch ->
  Z.max (LatestEpochWritten h) targetEpoch - WeakSubjectivityPeriod cfg < e ->
  exists h',
    markAttestationForTargetEpoch cfg h sourceEpoch targetEpoch = Done h'
    /\ safeTargetToSource cfg h' e = safeTargetToSource cfg h e.
Proof.
  intros Hwf Hp Hl Ht Hin He Hne Hwin.
  pose proof Hwf as [Hlen Hlew].
  destruct (mark_spec cfg h sourceEpoch targetEpoch)
    as (cleared & Hmark & Hlen' & _ & _ & Hkeep); try assumption;
    try (u64_unfold; lia).
  eexists. split; [exact Hmark|].
  assert (Hslot : (Z.to_nat (e mod WeakSubjectivityPeriod cfg)
                   < length (TargetToSource h))%nat)
    by (apply slot_in_range; lia).
  destruct (lookup_lt_is_Some_2 _ _ Hslot) as [x Hx].
  assert (Hother : Z.to_nat (targetEpoch mod WeakSubjectivityPeriod cfg)
                   <> Z.to_nat (e mod WeakSubjectivityPeriod cfg)).
  { destruct (Z.lt_total e targetEpoch) as [Hlt|[Heq|Hgt]]; [ | lia | ].
    - apply distinct_slots_nat; lia.
    - apply not_eq_sym, distinct_slots_nat; lia. }
  rewrite (safeTargetToSource_read cfg h e x); try assumption; try lia.
  2:{ apply orb_false_iff. split; apply Z.ltb_ge; [lia|]. u64_solve. }
  apply safeTargetToSource_read; simpl; try lia.
  - apply orb_false_iff. split; apply Z.ltb_ge; [lia|]. u64_solve.
  - rewrite list_lookup_insert_ne by assumption.
    rewrite Hkeep; [assumption|].
    intros e' He' Hbound. apply distinct_slots_nat; lia.
Qed.

Lemma commit_keeps_votes_in_window_witness :
  exists h',
    markAttestationForTargetEpoch period4 history_at_3 4 5 = Done h'
    /\ safeTargetToSource period4 h' 3 = safeTargetToSource period4 history_at_3 3.
Proof.
  apply (commit_keeps_votes_in_window period4 history_at_3 4 5 3).
  - split; [reflexivity | vm_compute; split; [discriminate | reflexivity]].
  - vm_compute. split; reflexivity.
  - vm_compute. reflexivity.
  - vm_compute. split; [discriminate | reflexivity].
  - simpl. lia.
  - simpl. lia.
  - lia.
  - simpl. lia.
Defined.

(** X6: once a vote for a target is committed, every later candidate for
    the same target is slashable, whatever its source: a second vote for the
    target cannot pass the check. *)
Theorem committed_target_is_protected cfg h sourceEpoch targetEpoch :
  wf_history cfg h ->
  0 < WeakSubjectivityPeriod cfg < half ->
  0 <= targetEpoch < half ->
  LatestEpochWritten h - WeakSubjectivityPeriod cfg < targetEpoch ->
  sourceEpoch <> FarFutureEpoch cfg ->
  exists h',
    markAttestationForTargetEpoch cfg h sourceEpoch targetEpoch = Done h'
    /\ forall fuel anySource,
         isNewAttSlashable fuel cfg h' anySource targetEpoch = Done true.
Proof.
  intros Hwf Hp Ht Hwin Hs.
  pose proof Hwf as [Hlen Hlew].
  destruct (mark_done cfg h sourceEpoch targetEpoch)
    as (cleared & Hmark & Hlen' & _); try assumption; try u64_solve.
  eexists. split; [exact Hmark|].
  apply (isNewAttSlashable_double_vote cfg _ targetEpoch sourceEpoch);
    simpl; try assumption; try lia.
  - unfold in_range in *. u64_unfold. lia.
  - apply list_lookup_insert_eq. rewrite Hlen', Hlen.
    pose proof (Z.mod_pos_bound targetEpoch (WeakSubjectivityPeriod cfg)). lia.
  - left. rewrite half_eq. lia.
Qed.

Lemma committed_target_is_protected_witness :
  exists h',
    markAttestationForTargetEpoch period4 history_at_3 9 10 = Done h'
    /\ forall fuel anySource,
         isNewAttSlashable fuel period4 h' anySource 10 = Done true.
Proof.
  apply (committed_target_is_protected period4 history_at_3 9 10).
  - split; [reflexivity | vm_compute; split; [discriminate | reflexivity]].
  - vm_compute. split; reflexivity.
  - vm_compute. split; [discriminate | reflexivity].
  - simpl. lia.
  - vm_compute. discriminate.
Defined.

(** X7: committing the same vote twice gives the history of committing it
    once. *)
Theorem commit_idempotent cfg h sourceEpoch targetEpoch :
  wf_history cfg h ->
  0 < WeakSubjectivityPeriod cfg < modulus -> in_range targetEpoch ->
  exists h',
    markAttestationForTargetEpoch cfg h sourceEpoch targetEpoch = Done h'
    /\ markAttestationForTargetEpoch cfg h' sourceEpoch targetEpoch = Done h'.
Proof.
  intros Hwf Hp Ht.
  pose proof Hwf as [Hlen Hlew].
  destruct (mark_done cfg h sourceEpoch targetEpoch)
    as (cleared & Hmark & Hlen' & _); try assumption.
  eexists. split; [exact Hmark|].
  match goal with
  | |- markAttestationForTargetEpoch _ ?h1 _ _ = _ =>
      destruct (mark_done cfg h1 sourceEpoch targetEpoch)
        as (cleared2 & Hmark2 & _ & Hsame); try assumption
  end.
  { split; simpl; [rewrite length_insert; congruence | unfold in_range in *; lia]. }
  simpl in Hmark2, Hsame. rewrite Hsame in Hmark2 by lia.
  rewrite Hmark2. f_equal. f_equal; [|lia].
  apply list_insert_insert_eq.
Qed.

Lemma commit_idempotent_witness :
  exists h',
    markAttestationForTargetEpoch period4 history_at_3 9 10 = Done h'
    /\ markAttestationForTargetEpoch period4 h' 9 10 = Done h'.
Proof.
  apply (commit_idempotent period4 history_at_3 9 10).
  - split; [reflexivity | vm_compute; split; [discriminate | reflexivity]].
  - vm_compute. split; reflexivity.
  - vm_compute. split; [discriminate | reflexivity].
Defined.

(** X8: with a period of zero every commit panics on the division
    [targetEpoch % wsPeriod]. *)
Theorem commit_panics_on_zero_period cfg h sourceEpoch targetEpoch :
  WeakSubjectivityPeriod cfg = 0 ->
  in_range (LatestEpochWritten h) -> in_range targetEpoch ->
  markAttestationForTargetEpoch cfg h sourceEpoch targetEpoch = Panic.
Proof.
  intros Hp Hl Ht. unfold markAttestationForTargetEpoch. rewrite Hp.
  destruct (Z.ltb_spec (LatestEpochWritten h) targetEpoch) as [Hlt|Hge].
  - rewrite clearLoop_exit; [reflexivity|].
    apply andb_false_iff. right. apply Z.leb_gt.
    rewrite Z.add_0_r, !u64_small by (unfold in_range in *; lia). lia.
  - reflexivity.
Qed.

Lemma commit_panics_on_zero_period_witness :
  markAttestationForTargetEpoch (configOfPeriod 0) history_at_3 9 10 = Panic.
Proof.
  apply (commit_panics_on_zero_period (configOfPeriod 0) history_at_3 9 10).
  - reflexivity.
  - vm_compute. split; [discriminate | reflexivity].
  - vm_compute. split; [discriminate | reflexivity].
Defined.

(** X9: a commit for a target below the window still writes its slot, and
    the slot belongs to an epoch of the window: the recorded source of that
    epoch is replaced by the source of the stale vote. *)
Theorem stale_commit_replaces_vote_in_window cfg h sourceEpoch targetEpoch e :
  wf_history cfg h ->
  0 < WeakSubjectivityPeriod cfg < half ->
  LatestEpochWritten h < half ->
  0 <= targetEpoch < e ->
  LatestEpochWritten h - WeakSubjectivityPeriod cfg < e <= LatestEpochWritten h ->
  targetEpoch mod WeakSubjectivityPeriod cfg = e mod WeakSubjectivityPeriod cfg ->
  exists h',
    markAttestationForTargetEpoch cfg h sourceEpoch targetEpoch = Done h'
    /\ safeTargetToSource cfg h' e = Done sourceEpoch.
Proof.
  intros Hwf Hp Hl Ht He Hslot.
  pose proof Hwf as [Hlen Hlew].
  destruct (mark_done cfg h sourceEpoch targetEpoch)
    as (cleared & Hmark & Hlen' & _); try assumption.
  { rewrite modulus_eq. rewrite half_eq in Hp. lia. }
  { unfold in_range in *. lia. }
  eexists. split; [exact Hmark|].
  apply safeTargetToSource_read; simpl; try lia.
  - apply orb_false_iff. split; apply Z.ltb_ge; [lia|].
    replace (Z.max (LatestEpochWritten h) targetEpoch)
      with (LatestEpochWritten h) by lia.
    rewrite window_start_exact, int_small by (unfold in_range in *; lia). lia.
  - rewrite Hslot. apply list_lookup_insert_eq. rewrite Hlen', Hlen.
    pose proof (Z.mod_pos_bound e (WeakSubjectivityPeriod cfg)). lia.
Qed.

Lemma stale_commit_replaces_vote_in_window_witness :
  exists h',
    markAttestationForTargetEpoch period4 history_wrapped 1 6 = Done h'
    /\ safeTargetToSource period4 h' 10 = Done 1.
Proof.
  apply (stale_commit_replaces_vote_in_window period4 history_wrapped 1 6 10).
  - split; [reflexivity | vm_compute; split; [discriminate | reflexivity]].
  - vm_compute. split; reflexivity.
  - vm_compute. reflexivity.
  - lia.
  - simpl. lia.
  - reflexivity.
Defined.

(** ** The loops of the check *)

Section Loops.

Variable cfg : BeaconChainConfig.
Variable h : AttestationHistory.

Notation "'period'" := (WeakSubjectivityPeriod cfg).
Notation "'far'" := (FarFutureEpoch cfg).

Hypothesis Hwf : wf_history cfg h.
Hypothesis Hperiod : 0 < period.

(** On a history of the data model the bounds-checked read never panics:
    it gives the sentinel or the content of the slot. *)
Lemma safeTargetToSource_total e :
  0 <= e ->
  exists x,
    safeTargetToSource cfg h e = Done x
    /\ (x = far \/ TargetToSource h !! Z.to_nat (e mod period) = Some x).
Proof.
  intros He. destruct Hwf as [Hlen _]. unfold safeTargetToSource.
  destruct (_ || _); [eauto|].
  rewrite rem_pos by assumption. simpl.
  assert (Hslot : (Z.to_nat (e mod period) < length (TargetToSource h))%nat)
    by (apply slot_in_range; assumption).
  destruct (lookup_lt_is_Some_2 _ _ Hslot) as [x Hx].
  exists x. split; [apply index_lookup; assumption | auto].
Qed.

Lemma slot_readable e :
  0 <= e -> exists x, index (TargetToSource h) (e mod period) = Done x
                      /\ TargetToSource h !! Z.to_nat (e mod period) = Some x.
Proof.
  intros He. destruct Hwf as [Hlen _].
  assert (Hslot : (Z.to_nat (e mod period) < length (TargetToSource h))%nat)
    by (apply slot_in_range; assumption).
  destruct (lookup_lt_is_Some_2 _ _ Hslot) as [x Hx].
  exists x. split; [apply index_lookup|]; assumption.
Qed.

(** The surrounding loop ends within [targetEpoch - i + 1] iterations. *)
Lemma surroundingLoop_terminates sourceEpoch targetEpoch fuel : forall i,
  0 <= i -> targetEpoch < modulus - 1 ->
  targetEpoch + 1 - i <= Z.of_nat fuel ->
  exists b, surroundingLoop fuel cfg h sourceEpoch targetEpoch i = Done b.
Proof.
  induction fuel as [|fuel IH]; intros i Hi Ht Hfuel; simpl.
  - destruct (Z.leb_spec i targetEpoch); [lia | eauto].
  - destruct (Z.leb_spec i targetEpoch); [|eauto].
    destruct (safeTargetToSource_total i Hi) as (x & -> & _). simpl.
    assert (Hnext : exists b,
      surroundingLoop fuel cfg h sourceEpoch targetEpoch (u64 (i + 1)) = Done b).
    { rewrite u64_small by (unfold in_range; lia). apply IH; lia. }
    destruct (x =? far); [assumption|].
    rewrite rem_pos by assumption. simpl.
    destruct (slot_readable i Hi) as (y & -> & _). simpl.
    destruct (sourceEpoch <? y); eauto.
Qed.

(** The surrounding loop answers [true] when an epoch [e] between [i]
    and the target holds a source above the candidate's. *)
Lemma surroundingLoop_finds sourceEpoch targetEpoch e recorded fuel : forall i,
  0 <= i <= e -> e <= targetEpoch -> targetEpoch < modulus - 1 ->
  safeTargetToSource cfg h e = Done recorded ->
  recorded <> far -> sourceEpoch < recorded ->
  e + 1 - i <= Z.of_nat fuel ->
  surroundingLoop fuel cfg h sourceEpoch targetEpoch i = Done true.
Proof.
  intros i Hi He Ht Hread Hvoted Hsurround.
  revert i Hi. induction fuel as [|fuel IH]; intros i Hi Hfuel; [lia|].
  simpl. destruct (Z.leb_spec i targetEpoch); [|lia].
  destruct (safeTargetToSource_total i ltac:(lia)) as (x & Hx & Hslot).
  rewrite Hx. simpl.
  assert (Hnext : i <> e ->
    surroundingLoop fuel cfg h sourceEpoch targetEpoch (u64 (i + 1)) = Done true).
  { intros Hne. rewrite u64_small by (unfold in_range; lia). apply IH; lia. }
  destruct (Z.eqb_spec x far) as [Hfar|Hnot].
  - apply Hnext. intros ->. congruence.
  - rewrite rem_pos by assumption. simpl.
    destruct Hslot as [Hfar|Hslot]; [contradiction|].
    rewrite (index_lookup _ _ _ Hslot). simpl.
    destruct (Z.ltb_spec sourceEpoch x); [reflexivity|].
    apply Hnext. intros ->. rewrite Hread in Hx. injection Hx as ->. lia.
Qed.


(** The surrounded loop answers [true] when an epoch [e] between [i] and
    the watermark reads below the candidate's source. *)
Lemma surroundedLoop_finds sourceEpoch e recorded fuel : forall i,
  0 <= i <= e -> e <= LatestEpochWritten h ->
  LatestEpochWritten h < modulus - 1 ->
  safeTargetToSource cfg h e = Done recorded -> recorded < sourceEpoch ->
  e + 1 - i <= Z.of_nat fuel ->
  surroundedLoop fuel cfg h sourceEpoch i = Done true.
Proof.
  intros i Hi He Hl Hread Hbelow.
  revert i Hi. induction fuel as [|fuel IH]; intros i Hi Hfuel; [lia|].
  simpl. destruct (Z.leb_spec i (LatestEpochWritten h)); [|lia].
  destruct (safeTargetToSource_total i ltac:(lia)) as (x & Hx & _).
  rewrite Hx. simpl.
  destruct (Z.ltb_spec x sourceEpoch); [reflexivity|].
  rewrite u64_small by (unfold in_range; lia). apply IH; [|lia].
  assert (i <> e) by (intros ->; rewrite Hread in Hx; injection Hx as ->; lia).
  lia.
Qed.

End Loops.



(** X11: a candidate that surrounds a recorded vote is slashable: when an
    epoch [e] of the window between the candidate's source and target holds a
    source above the candidate's, the check answers [true] once the fuel
    covers the epochs from the source to [e]. *)
Theorem surrounding_vote_detected cfg h sourceEpoch targetEpoch e recorded fuel :
  wf_history cfg h -> 0 < WeakSubjectivityPeriod cfg < half ->
  LatestEpochWritten h < half ->
  0 <= sourceEpoch <= e -> e <= targetEpoch -> targetEpoch < half ->
  LatestEpochWritten h - WeakSubjectivityPeriod cfg < e <= LatestEpochWritten h ->
  TargetToSource h !! Z.to_nat (e mod WeakSubjectivityPeriod cfg) = Some recorded ->
  recorded <> FarFutureEpoch cfg ->
  sourceEpoch < recorded ->
  e + 1 - sourceEpoch <= Z.of_nat fuel ->
  isNewAttSlashable fuel cfg h sourceEpoch targetEpoch = Done true.
Proof.
  intros Hwf Hp Hl Hs He Ht Hwin Hslot Hvoted Hsur Hfuel.
  pose proof Hwf as [Hlen Hlew]. unfold in_range in Hlew.
  assert (Hread : safeTargetToSource cfg h e = Done recorded).
  { apply safeTargetToSource_read; try assumption; try lia.
    apply orb_false_iff. split; apply Z.ltb_ge; [lia|].
    rewrite window_start_exact, int_small by lia. lia. }
  unfold isNewAttSlashable.
  rewrite window_start_exact, int_small by lia.
  destruct (Z.leb_spec targetEpoch
              (LatestEpochWritten h - WeakSubjectivityPeriod cfg)); [lia|].
  destruct (safeTargetToSource_total cfg h Hwf ltac:(lia) targetEpoch)
    as (x & -> & _); [lia|].
  simpl. destruct (negb _); [reflexivity|].
  rewrite (surroundingLoop_finds cfg h Hwf ltac:(lia) sourceEpoch targetEpoch e
             recorded fuel sourceEpoch); try assumption; try lia.
  - reflexivity.
  - rewrite modulus_eq. rewrite half_eq in Ht. lia.
Qed.

Lemma surrounding_vote_detected_witness :
  isNewAttSlashable 10 period8 history_voted 3 6 = Done true.
Proof.
  apply (surrounding_vote_detected period8 history_voted 3 6 5 4 10).
  - split; [reflexivity | vm_compute; split; [discriminate | reflexivity]].
  - vm_compute. split; reflexivity.
  - vm_compute. reflexivity.
  - lia.
  - lia.
  - vm_compute. reflexivity.
  - simpl. lia.
  - reflexivity.
  - vm_compute. discriminate.
  - lia.
  - simpl. lia.
Defined.

(** X12: a candidate that is surrounded by a recorded vote is slashable:
    when an epoch [e] of the window from the candidate's target to the
    watermark holds a source below the candidate's, the check answers [true]
    once the fuel covers both loops. *)
Theorem surrounded_vote_detected cfg h sourceEpoch targetEpoch e recorded fuel :
  wf_history cfg h -> 0 < WeakSubjectivityPeriod cfg < half ->
  LatestEpochWritten h < half ->
  0 <= sourceEpoch -> 0 <= targetEpoch <= e ->
  LatestEpochWritten h - WeakSubjectivityPeriod cfg < targetEpoch ->
  e <= LatestEpochWritten h ->
  TargetToSource h !! Z.to_nat (e mod WeakSubjectivityPeriod cfg) = Some recorded ->
  recorded < sourceEpoch ->
  targetEpoch + 1 - sourceEpoch <= Z.of_nat fuel ->
  e + 1 - targetEpoch <= Z.of_nat fuel ->
  isNewAttSlashable fuel cfg h sourceEpoch targetEpoch = Done true.
Proof.
  intros Hwf Hp Hl Hs Ht Hwin He Hslot Hbelow Hf1 Hf2.
  pose proof Hwf as [Hlen Hlew]. unfold in_range in Hlew.
  assert (Hread : safeTargetToSource cfg h e = Done recorded).
  { apply safeTargetToSource_read; try assumption; try lia.
    apply orb_false_iff. split; apply Z.ltb_ge; [lia|].
    rewrite window_start_exact, int_small by lia. lia. }
  unfold isNewAttSlashable.
  rewrite window_start_exact, int_small by lia.
  destruct (Z.leb_spec targetEpoch
              (LatestEpochWritten h - WeakSubjectivityPeriod cfg)); [lia|].
  destruct (safeTargetToSource_total cfg h Hwf ltac:(lia) targetEpoch)
    as (x & -> & _); [lia|].
  simpl. destruct (negb _); [reflexivity|].
  destruct (surroundingLoop_terminates cfg h Hwf ltac:(lia) sourceEpoch targetEpoch
              fuel sourceEpoch) as (b1 & ->); try lia.
  { rewrite modulus_eq. rewrite half_eq in Hl. lia. }
  simpl. destruct b1; [reflexivity|].
  rewrite (surroundedLoop_finds cfg h Hwf ltac:(lia) sourceEpoch e recorded fuel
             targetEpoch); try assumption; try lia.
  - reflexivity.
  - rewrite modulus_eq. rewrite half_eq in Hl. lia.
Qed.

Lemma surrounded_vote_detected_witness :
  isNewAttSlashable 10 period4 history_wrapped 8 9 = Done true.
Proof.
  apply (surrounded_vote_detected period4 history_wrapped 8 9 10 7 10).
  - split; [reflexivity | vm_compute; split; [discriminate | reflexivity]].
  - vm_compute. split; reflexivity.
  - vm_compute. reflexivity.
  - lia.
  - lia.
  - simpl. lia.
  - simpl. lia.
  - reflexivity.
  - lia.
  - simpl. lia.
  - simpl. lia.
Defined.

(** ** Histories without votes *)

Section Blank.

Variable cfg : BeaconChainConfig.
Variable h : AttestationHistory.

Notation "'period'" := (WeakSubjectivityPeriod cfg).
Notation "'far'" := (FarFutureEpoch cfg).

Hypothesis Hwf : wf_history cfg h.
Hypothesis Hperiod : 0 < period.
Hypothesis Hblank : Forall (fun x => x = far) (TargetToSource h).

Lemma blank_read e : 0 <= e -> safeTargetToSource cfg h e = Done far.
Proof.
  intros He.
  destruct (safeTargetToSource_total cfg h Hwf Hperiod e He) as (x & Hx & [->|Hslot]);
    [assumption|].
  rewrite Hx. f_equal.
  apply (proj1 (Forall_lookup _ _) Hblank _ _ Hslot).
Qed.



(** With the largest [uint64] as the target the condition
    [i <= targetEpoch] of the surrounding loop holds for every [i]: on a
    history without votes the loop uses up any fuel. *)
Lemma blank_surroundingLoop_never_ends sourceEpoch fuel : forall i,
  in_range i ->
  surroundingLoop fuel cfg h sourceEpoch (modulus - 1) i = OutOfFuel.
Proof.
  induction fuel as [|fuel IH]; intros i Hi; simpl;
    (destruct (Z.leb_spec i (modulus - 1)); [|unfold in_range in Hi; lia]).
  - reflexivity.
  - rewrite blank_read by (unfold in_range in Hi; lia). simpl.
    rewrite Z.eqb_refl. apply IH.
    unfold u64, in_range. apply Z.mod_pos_bound. reflexivity.
Qed.

End Blank.



(** X14: the check does not return for the target [2^64 - 1] on a history
    without votes whose watermark is more than one below the period: the
    loop condition [i <= targetEpoch] is true of every [uint64], so the
    surrounding loop uses up every fuel, whatever the source. *)
Theorem check_diverges_on_largest_target cfg h sourceEpoch fuel :
  wf_history cfg h -> 0 < WeakSubjectivityPeriod cfg < half ->
  Forall (fun x => x = FarFutureEpoch cfg) (TargetToSource h) ->
  LatestEpochWritten h + 1 < WeakSubjectivityPeriod cfg ->
  in_range sourceEpoch ->
  isNewAttSlashable fuel cfg h sourceEpoch (modulus - 1) = OutOfFuel.
Proof.
  intros Hwf Hp Hblank Hl Hs. unfold isNewAttSlashable.
  pose proof Hwf as [_ Hlew]. unfold in_range in Hlew.
  assert (Hcheck :
    (int (modulus - 1)
     <=? int_sub (int (LatestEpochWritten h)) (int (WeakSubjectivityPeriod cfg)))
    = false).
  { apply Z.leb_gt. rewrite window_start_exact by lia.
    unfold int. rewrite modulus_eq, half_eq. simpl. lia. }
  rewrite Hcheck.
  rewrite (blank_read cfg h Hwf ltac:(lia) Hblank) by (rewrite modulus_eq; lia).
  simpl. rewrite Z.eqb_refl. simpl.
  rewrite (blank_surroundingLoop_never_ends cfg h Hwf ltac:(lia) Hblank);
    [reflexivity | assumption].
Qed.

Lemma check_diverges_on_largest_target_witness :
  isNewAttSlashable 1000 mainnetConfig (emptyHistory mainnetConfig) 0 (modulus - 1)
  = OutOfFuel.
Proof.
  apply (check_diverges_on_largest_target mainnetConfig (emptyHistory mainnetConfig)
           0 1000).
  - split; [reflexivity | vm_compute; split; [discriminate | reflexivity]].
  - vm_compute. split; reflexivity.
  - apply Forall_replicate. reflexivity.
  - vm_compute. reflexivity.
  - vm_compute. split; [discriminate | reflexivity].
Defined.

(** ** The helpers of the orchestrator *)

(** X15: the duty lookup gives the first duty of the list whose public key
    is the key asked for, and fails exactly when the duties are not set or
    no duty has the key. *)
Theorem duty_is_first_match v pubKey :
  match duty v pubKey with
  | Some d =>
      exists ds i,
        duties v = Some ds /\ ds !! i = Some d /\ Duty_PublicKey d = pubKey
        /\ forall j d', (j < i)%nat -> ds !! j = Some d' ->
                        Duty_PublicKey d' <> pubKey
  | None =>
      duties v = None
      \/ exists ds, duties v = Some ds
                    /\ Forall (fun d => Duty_PublicKey d <> pubKey) ds
  end.
Proof.
  unfold duty. destruct (duties v) as [ds|]; [|left; reflexivity].
  assert (H : match findDuty pubKey ds with
              | Some d =>
                  exists i, ds !! i = Some d /\ Duty_PublicKey d = pubKey
                    /\ forall j d', (j < i)%nat -> ds !! j = Some d' ->
                                    Duty_PublicKey d' <> pubKey
              | None => Forall (fun d => Duty_PublicKey d <> pubKey) ds
              end).
  { induction ds as [|d ds IH]; simpl; [constructor|].
    destruct (decide (pubKey = Duty_PublicKey d)) as [Heq|Hne].
    - exists 0%nat. split; [reflexivity|]. split; [auto|]. intros; lia.
    - destruct (findDuty pubKey ds) as [d0|].
      + destruct IH as (i & Hi & Hkey & Hfirst).
        exists (S i). split; [assumption|]. split; [assumption|].
        intros [|j] d' Hj Hd'; simpl in Hd'.
        * injection Hd' as <-. auto.
        * apply (Hfirst j); [lia | assumption].
      + constructor; [auto | assumption]. }
  destruct (findDuty pubKey ds) as [d|].
  - destruct H as (i & H). exists ds, i. split; [reflexivity | assumption].
  - right. exists ds. split; [reflexivity | assumption].
Qed.

(** Where the validator stands in its committee, counted from [k]. *)
Lemma indexInCommittee_spec x : forall committee k,
  match indexInCommittee x committee k with
  | Some i =>
      k <= i /\ committee !! Z.to_nat (i - k) = Some x
      /\ forall j, (j < Z.to_nat (i - k))%nat -> committee !! j <> Some x
  | None => Forall (fun y => y <> x) committee
  end.
Proof.
  induction committee as [|y rest IH]; intros k; simpl; [constructor|].
  destruct (Z.eqb_spec y x) as [->|Hne].
  - split; [lia|]. rewrite Z.sub_diag. split; [reflexivity|]. intros; lia.
  - specialize (IH (k + 1)).
    destruct (indexInCommittee x rest (k + 1)) as [i|].
    + destruct IH as (Hk & Hi & Hfirst).
      replace (Z.to_nat (i - k)) with (S (Z.to_nat (i - (k + 1)))) by lia.
      split; [lia|]. split; [assumption|].
      intros [|j] Hj; simpl; [congruence|]. apply Hfirst. lia.
    + constructor; assumption.
Qed.

(** X16: when the validator is in its committee, the aggregation bits of
    its attestations are as long as the committee and have exactly one bit
    set, at the first position of the validator in the committee. *)
Theorem one_bit_at_validator_position x committee i :
  indexInCommittee x committee 0 = Some i ->
  let bits := aggregationBitfield (length committee) i in
  length bits = length committee
  /\ committee !! Z.to_nat i = Some x
  /\ (forall j, (j < Z.to_nat i)%nat -> committee !! j <> Some x)
  /\ forall j, bits !! j = Some true <-> j = Z.to_nat i.
Proof.
  intros Hidx. pose proof (indexInCommittee_spec x committee 0) as H.
  rewrite Hidx in H. rewrite Z.sub_0_r in H. destruct H as (Hi & Hat & Hfirst).
  assert (Hlt : (Z.to_nat i < length committee)%nat)
    by (apply lookup_lt_is_Some; eauto).
  unfold aggregationBitfield. cbv zeta.
  split; [rewrite length_insert, length_replicate; reflexivity|].
  split; [assumption|]. split; [assumption|].
  intros j. split.
  - intros Hj. destruct (decide (j = Z.to_nat i)) as [|Hne]; [assumption|].
    rewrite list_lookup_insert_ne in Hj by congruence.
    apply lookup_replicate in Hj as [Hj _]. discriminate Hj.
  - intros ->. apply list_lookup_insert_eq. rewrite length_replicate. assumption.
Qed.

Lemma one_bit_at_validator_position_witness :
  let bits := aggregationBitfield (length [11; 7; 7]) 1 in
  length bits = length [11; 7; 7]
  /\ [11; 7; 7] !! Z.to_nat 1 = Some 7
  /\ (forall j, (j < Z.to_nat 1)%nat -> [11; 7; 7] !! j <> Some 7)
  /\ forall j, bits !! j = Some true <-> j = Z.to_nat 1.
Proof.
  apply (one_bit_at_validator_position 7 [11; 7; 7] 1). reflexivity.
Defined.

(** X17: when the attestation data hashes, [saveAttesterIndexToData]
    does not panic and leaves the trace alone; the entry of the hash in the
    log map then holds the data, the attester indices that the entry had
    (none when it is new) followed by the index, and no aggregator index;
    the other entries are untouched. *)
Theorem attester_index_logged v att index w hash :
  HashProto (env v) att = Some hash ->
  let before :=
    match attLogs w !! hash with
    | Some entry => attesterIndices entry
    | None => []
    end in
  exists logs,
    saveAttesterIndexToData v att index w
    = ({| trace := trace w; attLogs := logs |}, Next true)
    /\ logs !! hash
       = Some {| data := att; attesterIndices := before ++ [index];
                 aggregatorIndices := [] |}
    /\ forall other, other <> hash -> logs !! other = attLogs w !! other.
Proof.
  intros Hhash. unfold saveAttesterIndexToData. rewrite Hhash.
  unfold bind, getAttLogs, setAttLogs, ret. simpl.
  destruct (attLogs w !! hash) as [entry|] eqn:Hentry.
  - rewrite Hentry. simpl. eexists. split; [reflexivity|].
    split; [apply lookup_insert_eq|].
    intros other Hother. apply lookup_insert_ne. congruence.
  - rewrite lookup_insert_eq. simpl. eexists. split; [reflexivity|].
    split; [apply lookup_insert_eq|].
    intros other Hother. rewrite !lookup_insert_ne by congruence. reflexivity.
Qed.

Lemma attester_index_logged_witness :
  exists logs,
    saveAttesterIndexToData attester (dataOf 4 6) 7 {| trace := []; attLogs := ∅ |}
    = ({| trace := []; attLogs := logs |}, Next true)
    /\ logs !! 0
       = Some {| data := dataOf 4 6; attesterIndices := [7];
                 aggregatorIndices := [] |}.
Proof.
  destruct (attester_index_logged attester (dataOf 4 6) 7
              {| trace := []; attLogs := ∅ |} 0 eq_refl) as (logs & Hrun & Hat & _).
  exists logs. split; [exact Hrun | exact Hat].
Defined.

(** ** The orchestrator: what an attempt never does *)

Lemma never_from_quiet Q ext :
  (forall e, is_quiet e = true -> Q e = false) ->
  Forall (fun e => is_quiet e = true) ext -> Forall (fun e => Q e = false) ext.
Proof. intros HQ Hq. eapply Forall_impl; [exact Hq | exact HQ]. Qed.

(** Peels the events off the end of a trace for [only_after Q], leaving the
    events with [Q]; [Q] holds of none of the events of the fetch loop. *)
Ltac peel_quiet :=
  repeat (apply only_after_snoc;
          [| let H := fresh "HQ" in intros H; try discriminate H]);
  try (apply only_after_app;
       [ repeat (apply only_after_snoc;
                 [| let H := fresh "HQ" in intros H; try discriminate H]);
         try apply only_after_nil
       | apply never_from_quiet;
         [ let e := fresh "e" in let H := fresh "H" in
           intros e H; destruct e; try reflexivity; discriminate H
         | assumption ] ]);
  try apply only_after_nil.

Lemma SubmitAttestation_unprotected fuel cfg flags v slot pubKey w :
  ProtectAttester flags = false -> trace w = [] ->
  post (SubmitAttestation fuel cfg flags v slot pubKey) w
    (fun _ w' => never is_protection (trace w'))
    (fun w' => never is_protection (trace w')).
Proof.
  intros Hp Hw. unfold SubmitAttestation, saveAttesterIndexToData. rewrite Hp.
  repeat post_step.
  all: unfold snoc_event in *; cbn [trace attLogs] in *; rewrite ?Hw in *.
  all: unfold never; peel_quiet.
Qed.

(** X18: with slashing protection disabled an attempt never touches the
    history: it does not load it, does not call the check and does not save
    it, whatever the collaborators answer and however the attempt ends. *)
Theorem unprotected_attempt_leaves_history_alone fuel cfg flags v slot pubKey logs :
  ProtectAttester flags = false ->
  never is_protection (execution fuel cfg flags v slot pubKey logs).
Proof.
  intros Hp. unfold execution.
  pose proof (SubmitAttestation_unprotected fuel cfg flags v slot pubKey
                {| trace := []; attLogs := logs |} Hp eq_refl) as H.
  unfold post in H.
  destruct (SubmitAttestation _ _ _ _ _ _ _) as [w' [[]| | |]]; exact H.
Qed.

Lemma unprotected_attempt_leaves_history_alone_witness :
  never is_protection
    (execution 10 period8 {| ProtectAttester := false |} attester 200 key ∅).
Proof.
  apply (unprotected_attempt_leaves_history_alone 10 period8
           {| ProtectAttester := false |} attester 200 key ∅).
  reflexivity.
Defined.

Lemma SubmitAttestation_not_in_committee fuel cfg flags v slot pubKey w d :
  duty v pubKey = Some d ->
  indexInCommittee (Duty_ValidatorIndex d) (Duty_Committee d) 0 = None ->
  trace w = [] ->
  post (SubmitAttestation fuel cfg flags v slot pubKey) w
    (fun _ w' => never is_submission (trace w'))
    (fun w' => never is_submission (trace w')).
Proof.
  intros Hd Hidx Hw. unfold SubmitAttestation, saveAttesterIndexToData.
  rewrite Hd. repeat post_step.
  all: try match goal with
           | H : Some _ = Some _ |- _ => injection H as <-
           end.
  all: try congruence.
  all: unfold snoc_event in *; cbn [trace attLogs] in *; rewrite ?Hw in *.
  all: unfold never; peel_quiet.
Qed.

(** X19: when the validator of the duty is not a member of the duty's
    committee, no attestation is submitted in any execution (the membership is
    looked up after both attestations are signed). *)
Theorem outsider_never_submits fuel cfg flags v slot pubKey logs d :
  duty v pubKey = Some d ->
  Forall (fun member => member <> Duty_ValidatorIndex d) (Duty_Committee d) ->
  never is_submission (execution fuel cfg flags v slot pubKey logs).
Proof.
  intros Hd Hout. unfold execution.
  assert (Hidx : indexInCommittee (Duty_ValidatorIndex d) (Duty_Committee d) 0 = None).
  { pose proof (indexInCommittee_spec (Duty_ValidatorIndex d) (Duty_Committee d) 0) as H.
    destruct (indexInCommittee _ _ _) as [i|]; [|reflexivity].
    destruct H as (_ & Hat & _).
    apply (proj1 (Forall_lookup _ _) Hout) in Hat. congruence. }
  pose proof (SubmitAttestation_not_in_committee fuel cfg flags v slot pubKey
                {| trace := []; attLogs := logs |} d Hd Hidx eq_refl) as H.
  unfold post in H.
  destruct (SubmitAttestation _ _ _ _ _ _ _) as [w' [[]| | |]]; exact H.
Qed.

Lemma outsider_never_submits_witness :
  never is_submission (execution 10 period8 protecting outsider 200 key ∅).
Proof.
  eapply (outsider_never_submits 10 period8 protecting outsider 200 key ∅).
  - reflexivity.
  - repeat constructor; discriminate.
Defined.

Lemma SubmitAttestation_success fuel cfg flags v slot pubKey w :
  trace w = [] ->
  post (SubmitAttestation fuel cfg flags v slot pubKey) w
    (fun _ w' =>
       only_after is_success
         (fun pre _ => both_accepted pre
                       /\ (ProtectAttester flags = true -> saved_before pre))
         (trace w'))
    (fun w' =>
       only_after is_success
         (fun pre _ => both_accepted pre
                       /\ (ProtectAttester flags = true -> saved_before pre))
         (trace w')).
Proof.
  intros Hw. unfold SubmitAttestation, saveAttesterIndexToData.
  repeat post_step.
  all: unfold snoc_event in *; cbn [trace attLogs] in *; rewrite ?Hw in *.
  all: peel_quiet.
  all: split.
  all: try (unfold both_accepted; rewrite !List.filter_app;
            match goal with
            | Hq : Forall _ ?ext |- _ => rewrite (quiet_no_submission ext Hq)
            end;
            simpl; do 4 eexists; reflexivity).
  all: intros Hprot; try discriminate Hprot.
  all: unfold saved_before; do 2 eexists; find_event.
Qed.

(** X20: the success counter of the key is incremented only at the end of
    an attempt in which two attestations were submitted and both accepted
    and, with slashing protection enabled, the history was saved. *)
Theorem success_counted_only_after_everything fuel cfg flags v slot pubKey logs :
  only_after is_success
    (fun pre _ => both_accepted pre
                  /\ (ProtectAttester flags = true -> saved_before pre))
    (execution fuel cfg flags v slot pubKey logs).
Proof.
  unfold execution.
  pose proof (SubmitAttestation_success fuel cfg flags v slot pubKey
                {| trace := []; attLogs := logs |} eq_refl) as H.
  unfold post in H.
  destruct (SubmitAttestation _ _ _ _ _ _ _) as [w' [[]| | |]]; exact H.
Qed.

Lemma signing_only_after_check_witness :
  only_after is_signing (fun pre _ => consulted pre)
    (execution 10 period8 protecting attester 200 key ∅).
Proof.
  apply (signing_only_after_check 10 period8 protecting attester 200 key ∅).
  reflexivity.
Defined.

(** ** The orchestrator: exact steps *)

Section PostExact.

Context {A : Type}.

Lemma post_abandon_exact v fmtKey msg w (Q : A -> world -> Prop) (R : world -> Prop) :
  (emitAccountMetrics v = false -> R (snoc_event w (EvLogError msg))) ->
  (emitAccountMetrics v = true ->
   R (snoc_event (snoc_event w (EvLogError msg)) (EvFailMetric fmtKey))) ->
  post (abandon v fmtKey msg) w Q R.
Proof.
  unfold post, abandon, bind, emit, when, return_, ret.
  destruct (emitAccountMetrics v); simpl; auto.
Qed.

Lemma post_orAbandon_exact v fmtKey msg (r : option A) w Q R :
  (forall a, r = Some a -> Q a w) ->
  (r = None -> emitAccountMetrics v = false ->
   R (snoc_event w (EvLogError msg))) ->
  (r = None -> emitAccountMetrics v = true ->
   R (snoc_event (snoc_event w (EvLogError msg)) (EvFailMetric fmtKey))) ->
  post (orAbandon v fmtKey msg r) w Q R.
Proof.
  intros HQ H1 H2. destruct r; simpl;
    [apply post_ret | apply post_abandon_exact]; auto.
Qed.

End PostExact.

(** The steps of [signAtt]: the request for the domain, then the hash, then
    the key manager. *)
Lemma post_signAtt_exact v pubKey att w (Q : option bytes -> world -> Prop) R :
  Q None (snoc_event w (EvDomainData (Epoch (Target att)) None)) ->
  (forall domain,
     HashTreeRoot (env v) att = None ->
     Q None (snoc_event w (EvDomainData (Epoch (Target att)) (Some domain)))) ->
  (forall domain root res,
     HashTreeRoot (env v) att = Some root ->
     Q res (snoc_event
              (snoc_event w (EvDomainData (Epoch (Target att)) (Some domain)))
              (EvSign pubKey root domain res))) ->
  post (signAtt v pubKey att) w Q R.
Proof.
  intros Hnone Hhash Hsign. unfold signAtt. apply post_bind, post_call.
  intros [domain|]; [|apply post_ret; assumption].
  destruct (HashTreeRoot (env v) att) as [root|] eqn:Hroot.
  - apply post_call. intros res. apply Hsign. reflexivity.
  - apply post_ret. apply Hhash. reflexivity.
Qed.

(** The loop for the second attestation data: it adds requests to the
    beacon node and, when one fails, the error line and the failure count;
    the data it ends with has another source epoch than the first and, unless
    it is the data the loop started with, was given by the beacon node. *)
Lemma post_fetchSecond_exact fuel v fmtKey slot committeeIndex data1 :
  forall data2 w (Q : AttestationData -> world -> Prop) (R : world -> Prop),
  (forall ext,
     Forall (fun e => is_fetch e = true) ext ->
     let w' := {| trace := trace w ++ ext; attLogs := attLogs w |} in
     let msg := "Could not request attestation 2 to sign at slot"%string in
     (forall next,
        Epoch (Source data1) <> Epoch (Source next) ->
        next = data2
        \/ In (EvGetAttestationData slot committeeIndex (Some next)) ext ->
        Q next w')
     /\ R w'
     /\ (emitAccountMetrics v = false -> R (snoc_event w' (EvLogError msg)))
     /\ (emitAccountMetrics v = true ->
         R (snoc_event (snoc_event w' (EvLogError msg)) (EvFailMetric fmtKey)))) ->
  post (fetchSecond fuel v fmtKey slot committeeIndex data1 data2) w Q R.
Proof.
  assert (Hsame : forall w, {| trace := trace w ++ []; attLogs := attLogs w |} = w).
  { intros [tr lg]. simpl. rewrite app_nil_r. reflexivity. }
  assert (Hnil : Forall (fun e => is_fetch e = true) []) by constructor.
  induction fuel as [|fuel IH]; intros data2 w Q R H; simpl.
  - destruct (H [] Hnil) as (HQ & HR & _). rewrite Hsame in HQ, HR.
    destruct (Z.eqb_spec (Epoch (Source data1)) (Epoch (Source data2)));
      [apply post_exhausted | apply post_ret]; auto.
  - destruct (Z.eqb_spec (Epoch (Source data1)) (Epoch (Source data2))).
    + apply post_bind, post_call. intros res.
      apply post_bind, post_orAbandon_exact.
      * intros next ->. apply IH. intros ext Hext. unfold snoc_event. simpl.
        rewrite <- app_assoc.
        destruct (H (EvGetAttestationData slot committeeIndex (Some next) :: ext))
          as (HQ & HR & Hoff & Hon); [constructor; auto|].
        split; [|split; [|split]]; try assumption.
        intros last Hne [->|Hin]; apply HQ; auto.
        -- right. left. reflexivity.
        -- right. right. assumption.
      * intros -> Hoff.
        destruct (H [EvGetAttestationData slot committeeIndex None])
          as (_ & _ & HR & _); [repeat constructor|]. apply HR, Hoff.
      * intros -> Hon.
        destruct (H [EvGetAttestationData slot committeeIndex None])
          as (_ & _ & _ & HR); [repeat constructor|]. apply HR, Hon.
    + destruct (H [] Hnil) as (HQ & _). rewrite Hsame in HQ.
      apply post_ret; auto.
Qed.

(** One exact step of the execution of [SubmitAttestation] under [post]. *)
Ltac post_exact :=
  lazymatch goal with
  | |- post (bind _ _) _ _ _ => apply post_bind
  | |- post (call _ _) _ _ _ => apply post_call; intros ?
  | |- post (emit _) _ _ _ => apply post_emit
  | |- post (ret _) _ _ _ => apply post_ret
  | |- post return_ _ _ _ => apply post_return
  | |- post getAttLogs _ _ _ => apply post_getAttLogs
  | |- post (setAttLogs _) _ _ _ => apply post_setAttLogs
  | |- post (orAbandon _ _ _ _) _ _ _ =>
      apply post_orAbandon_exact;
      [ let H := fresh "Hsome" in
        intros ? H; first [discriminate H | subst | idtac]
      | let H := fresh "Hnone" in
        intros H ?; first [discriminate H | subst | idtac]
      | let H := fresh "Hnone" in
        intros H ?; first [discriminate H | subst | idtac] ]
  | |- post (abandon _ _ _) _ _ _ => apply post_abandon_exact; intros ?
  | |- post (fetchSecond _ _ _ _ _ ?d ?d) _ _ _ =>
      apply post_fetchSecond_exact; intros ? ?; cbv zeta;
      split; [ let Hne := fresh "Hne" in let Hin := fresh "Hin" in
               intros ? Hne [->|Hin]; [congruence|]
             | split; [|split; intros ?] ]
  | |- post (signAtt _ _ _) _ _ _ =>
      apply post_signAtt_exact; [| intros ? ? | intros ? ? ? ?]
  | |- post (lift _) _ _ _ => apply post_lift; [intros ? ? | ]
  | |- post (when _ _) _ _ _ => apply post_when; intros ?
  | |- post (if ?b then _ else _) _ _ _ => destruct b eqn:?
  | |- post (match ?x with _ => _ end) _ _ _ => destruct x eqn:?
  end.

Lemma metric_last_quiet tr :
  Forall (fun e => is_metric e = false) tr -> metric_is_last tr.
Proof.
  intros Hq pre e post -> He.
  apply Forall_app in Hq as [_ Hq]. apply Forall_inv in Hq. congruence.
Qed.

Lemma metric_last_snoc tr e :
  Forall (fun e => is_metric e = false) tr -> metric_is_last (tr ++ [e]).
Proof.
  intros Hq pre e' post Heq He.
  destruct post as [|x post _] using rev_ind.
  - apply app_inj_tail in Heq as [-> _]. auto.
  - change (pre ++ e' :: post ++ [x]) with (pre ++ (e' :: post) ++ [x]) in Heq.
    rewrite app_assoc in Heq. apply app_inj_tail in Heq as [-> _].
    apply Forall_app in Hq as [_ Hq]. apply Forall_inv in Hq. congruence.
Qed.

(** No counter among the events of an explicit trace. *)
Ltac no_metric :=
  repeat first
    [ apply Forall_nil_2
    | apply Forall_app_2
    | apply Forall_cons_2; [reflexivity|]
    | match goal with
      | Hq : Forall (fun e => is_fetch e = true) ?ext |- Forall _ ?ext =>
          eapply Forall_impl; [exact Hq|];
          let e := fresh "e" in let H := fresh "H" in
          intros e H; destruct e; try reflexivity; discriminate H
      end ].

Lemma SubmitAttestation_metrics fuel cfg flags v slot pubKey w :
  trace w = [] ->
  post (SubmitAttestation fuel cfg flags v slot pubKey) w
    (fun _ w' =>
       metric_is_last (trace w')
       /\ (emitAccountMetrics v = false ->
           Forall (fun e => is_metric e = false) (trace w')))
    (fun w' =>
       metric_is_last (trace w')
       /\ (emitAccountMetrics v = false ->
           Forall (fun e => is_metric e = false) (trace w'))).
Proof.
  intros Hw. unfold SubmitAttestation, saveAttesterIndexToData.
  repeat post_exact.
  all: unfold snoc_event in *; cbn [trace attLogs] in *; rewrite ?Hw in *.
  all: split;
    [ first [ apply metric_last_quiet; solve [no_metric]
            | apply metric_last_snoc; solve [no_metric] ]
    | intros Hoff; first [congruence | solve [no_metric]] ].
Qed.

(** X21: a counter of the account metrics is incremented at most once in
    an attempt, as its last event, and never when the account metrics are
    off. *)
Theorem one_counter_at_the_end fuel cfg flags v slot pubKey logs :
  metric_is_last (execution fuel cfg flags v slot pubKey logs)
  /\ (emitAccountMetrics v = false ->
      Forall (fun e => is_metric e = false)
        (execution fuel cfg flags v slot pubKey logs)).
Proof.
  unfold execution.
  pose proof (SubmitAttestation_metrics fuel cfg flags v slot pubKey
                {| trace := []; attLogs := logs |} eq_refl) as H.
  unfold post in H.
  destruct (SubmitAttestation _ _ _ _ _ _ _) as [w' [[]| | |]]; exact H.
Qed.

Lemma one_counter_at_the_end_witness :
  Forall (fun e => is_metric e = false)
    (execution 10 period8 protecting attester 200 key ∅).
Proof.
  apply (one_counter_at_the_end 10 period8 protecting attester 200 key ∅).
  reflexivity.
Defined.

Lemma fetch_no_submission ext :
  Forall (fun e => is_fetch e = true) ext -> List.filter is_submission ext = [].
Proof.
  induction 1 as [|e ext He _ IH]; [reflexivity|].
  simpl. rewrite IH. destruct e; try reflexivity; discriminate He.
Qed.

(** Finds an event in a trace built by appending, from its end, looking
    into the part that the fetch loop added. *)
Ltac find_fetched :=
  first
    [ eassumption
    | left; reflexivity
    | apply in_or_app; right; left; reflexivity
    | apply in_or_app; left; find_fetched
    | right; find_fetched ].

Lemma SubmitAttestation_votes fuel cfg flags v slot pubKey w :
  trace w = [] ->
  post (SubmitAttestation fuel cfg flags v slot pubKey) w
    (fun _ w' => distinct_votes slot (trace w'))
    (fun w' => distinct_votes slot (trace w')).
Proof.
  intros Hw. unfold SubmitAttestation, saveAttesterIndexToData.
  repeat post_exact.
  all: unfold snoc_event in *; cbn [trace attLogs] in *; rewrite ?Hw in *.
  all: unfold distinct_votes, submissions; rewrite !List.filter_app;
    try match goal with
        | Hq : Forall _ ?ext |- _ => rewrite (fetch_no_submission ext Hq)
        end;
    simpl.
  all: try exact I.
  all: unfold fetched_for.
  all: repeat split; try discriminate; try assumption.
  all: eexists; find_fetched.
Qed.

(** X22: in every execution at most two attestations are submitted, the
    second only after the beacon node accepted the first; each carries
    attestation data that the beacon node gave for the slot in this
    execution; the two have different source epochs and the same aggregation
    bits. *)
Theorem submits_two_distinct_votes fuel cfg flags v slot pubKey logs :
  distinct_votes slot (execution fuel cfg flags v slot pubKey logs).
Proof.
  unfold execution.
  pose proof (SubmitAttestation_votes fuel cfg flags v slot pubKey
                {| trace := []; attLogs := logs |} eq_refl) as H.
  unfold post in H.
  destruct (SubmitAttestation _ _ _ _ _ _ _) as [w' [[]| | |]]; exact H.
Qed.

Lemma SubmitAttestation_signs fuel cfg flags v slot pubKey w :
  trace w = [] ->
  post (SubmitAttestation fuel cfg flags v slot pubKey) w
    (fun _ w' => only_after is_key_sign (signs_fetched_data v slot pubKey) (trace w'))
    (fun w' => only_after is_key_sign (signs_fetched_data v slot pubKey) (trace w')).
Proof.
  intros Hw. unfold SubmitAttestation, saveAttesterIndexToData.
  repeat post_exact.
  all: unfold snoc_event in *; cbn [trace attLogs] in *; rewrite ?Hw in *.
  all: repeat (apply only_after_snoc;
               [| let H := fresh "HQ" in intros H; try discriminate H]);
    try (apply only_after_app;
         [ repeat (apply only_after_snoc;
                   [| let H := fresh "HQ" in intros H; try discriminate H]);
           try apply only_after_nil
         | match goal with
           | Hq : Forall _ ?ext |- _ =>
               eapply Forall_impl; [exact Hq|];
               let e := fresh "e" in let H := fresh "H" in
               intros e H; destruct e; try reflexivity; discriminate H
           end ]);
    try apply only_after_nil.
  all: unfold signs_fetched_data, fetched_for.
  all: do 4 eexists; split; [reflexivity|]; split; [eassumption|];
    split; [apply last_snoc|]; eexists; find_fetched.
Qed.

(** X23: whenever the key manager is asked for a signature, it is with the
    key of the attempt, on the hash tree root of attestation data that the
    beacon node gave for the slot, and under the domain that the request just
    before obtained for the target epoch of that data. *)
Theorem signs_only_fetched_data fuel cfg flags v slot pubKey logs :
  only_after is_key_sign (signs_fetched_data v slot pubKey)
    (execution fuel cfg flags v slot pubKey logs).
Proof.
  unfold execution.
  pose proof (SubmitAttestation_signs fuel cfg flags v slot pubKey
                {| trace := []; attLogs := logs |} eq_refl) as H.
  unfold post in H.
  destruct (SubmitAttestation _ _ _ _ _ _ _) as [w' [[]| | |]]; exact H.
Qed.

(** X25: for a key without a duty (the duties are not set, or none has
    the key) the attempt ends at once: one error line, the failure count of
    the key when the account metrics are on, and no call of any
    collaborator. *)
Theorem no_duty_no_call fuel cfg flags v slot pubKey logs :
  duty v pubKey = None ->
  execution fuel cfg flags v slot pubKey logs
  = EvLogError "Could not fetch validator assignment"
      :: (if emitAccountMetrics v then [EvFailMetric (take 8 pubKey)] else []).
Proof.
  intros Hd. unfold execution, SubmitAttestation. unfold bind at 1.
  rewrite Hd. unfold orAbandon, abandon, bind, emit, when, return_, ret.
  destruct (emitAccountMetrics v); reflexivity.
Qed.

Lemma no_duty_no_call_witness :
  execution 10 period8 protecting attester 200 [] ∅
  = [EvLogError "Could not fetch validator assignment"].
Proof.
  apply (no_duty_no_call 10 period8 protecting attester 200 [] ∅). reflexivity.
Defined.

(** The run with the account metrics on ends with the success count. *)
Example measured_run_counts_success :
  last (execution 10 period8 protecting measured 200 key ∅)
  = Some (EvSuccessMetric (take 8 key)).
Proof. vm_compute. reflexivity. Qed.

(** ** The check of the first candidate *)

Lemma quiet_no_protection ext :
  Forall (fun e => is_quiet e = true) ext -> List.filter is_protection ext = [].
Proof.
  induction 1 as [|e ext He _ IH]; [reflexivity|].
  simpl. rewrite IH. destruct e; try reflexivity; discriminate He.
Qed.

Lemma SubmitAttestation_first_cleared fuel cfg flags v slot pubKey w :
  ProtectAttester flags = true -> trace w = [] ->
  post (SubmitAttestation fuel cfg flags v slot pubKey) w
    (fun _ w' =>
       only_after is_signing
         (fun pre _ => first_candidate_cleared fuel cfg pubKey pre) (trace w'))
    (fun w' =>
       only_after is_signing
         (fun pre _ => first_candidate_cleared fuel cfg pubKey pre) (trace w')).
Proof.
  intros Hp Hw. unfold SubmitAttestation, saveAttesterIndexToData. rewrite Hp.
  repeat post_step.
  all: unfold snoc_event in *; cbn [trace attLogs] in *; rewrite ?Hw in *.
  all: peel_quiet.
  all: unfold first_candidate_cleared; do 4 eexists.
  all: split; [reflexivity|].
  all: split; [|eassumption].
  all: rewrite !List.filter_app;
    match goal with
    | Hq : Forall _ ?ext |- _ => rewrite (quiet_no_protection ext Hq)
    end;
    reflexivity.
Qed.

Lemma head_app_cons {A : Type} (pre post : list A) (x e : A) :
  head (pre ++ e :: post) = Some x -> head pre = Some x \/ pre = [].
Proof. destruct pre; simpl; auto. Qed.

(** X24: with slashing protection enabled nothing is signed (no request
    for the domain, no call of the key manager) unless the execution began by
    fetching the first attestation data, then loaded the history, and
    [isNewAttSlashable] answered [false] on that history for the source and
    target of that first data.  So an attempt in which the check of the
    first candidate on the loaded history answers [true] signs nothing. *)
Theorem signing_only_after_first_candidate_cleared
    fuel cfg flags v slot pubKey logs :
  ProtectAttester flags = true ->
  only_after is_signing
    (fun pre _ => first_candidate_cleared fuel cfg pubKey pre)
    (execution fuel cfg flags v slot pubKey logs)
  /\ forall slot' committeeIndex data1 history,
       head (execution fuel cfg flags v slot pubKey logs)
       = Some (EvGetAttestationData slot' committeeIndex (Some data1)) ->
       head (List.filter is_protection (execution fuel cfg flags v slot pubKey logs))
       = Some (EvAttestationHistory pubKey (Some history)) ->
       isNewAttSlashable fuel cfg history
         (Epoch (Source data1)) (Epoch (Target data1)) = Done true ->
       never is_signing (execution fuel cfg flags v slot pubKey logs).
Proof.
  intros Hp.
  assert (Hsign :
    only_after is_signing
      (fun pre _ => first_candidate_cleared fuel cfg pubKey pre)
      (execution fuel cfg flags v slot pubKey logs)).
  { unfold execution.
    pose proof (SubmitAttestation_first_cleared fuel cfg flags v slot pubKey
                  {| trace := []; attLogs := logs |} Hp eq_refl) as H.
    unfold post in H.
    destruct (SubmitAttestation _ _ _ _ _ _ _) as [w' [[]| | |]]; exact H. }
  split; [exact Hsign|].
  intros slot' committeeIndex data1 history Hhead Hload Hslashable.
  intros pre e post Heq He.
  destruct (Hsign pre e post Heq He)
    as (slot2 & ci2 & data2 & history2 & Hhead2 & Hprot & Hclear).
  rewrite Heq in Hhead, Hload.
  destruct (head_app_cons _ _ _ _ Hhead) as [Hpre | ->]; [ | discriminate Hhead2 ].
  rewrite Hhead2 in Hpre. injection Hpre as _ _ ->.
  rewrite List.filter_app, Hprot in Hload. simpl in Hload.
  injection Hload as ->. congruence.
Qed.

Lemma signing_only_after_first_candidate_cleared_witness :
  never is_signing
    (execution 10 period8 protecting attester_slashable_first 200 key ∅).
Proof.
  eapply (signing_only_after_first_candidate_cleared 10 period8 protecting
            attester_slashable_first 200 key ∅).
  - reflexivity.
  - vm_compute. reflexivity.
  - vm_compute. reflexivity.
  - vm_compute. reflexivity.
Defined.

(** The run whose first candidate is slashable: two requests, the load,
    the check, and the error line. *)
Example slashable_first_candidate_run :
  execution 10 period8 protecting attester_slashable_first 200 key ∅
  = [ EvGetAttestationData 200 0 (Some (dataOf 3 6));
      EvGetAttestationData 200 0 (Some (dataOf 4 6));
      EvAttestationHistory key (Some history_voted);
      EvIsNewAttSlashable 3 6 true;
      EvLogError "Attempted to make a slashable attestation, rejected" ].
Proof. vm_compute. reflexivity. Qed.
